(** * ClickUp MCP server: tool registry and dispatch engine

    A shallow embedding of [src/server.ts] (enablement filter, metadata
    enhancer, discovery and invocation handlers, configuration guard), of
    the cache prewarm of [src/services/shared.ts] and of the descriptor of
    [src/tools/custom-api.ts], with the properties the specification states
    about them.

    JavaScript objects are finite maps from property names to values
    ([gmap string JsValue]): two objects are equal when they have the same own
    properties with the same values, which is the equality the specification
    speaks of; the enumeration order of the keys is not represented (every key
    is written independently of the others by the code below), and neither
    is the prototype of an object (the code reads own properties, and tests
    [in] only for names that [Object.prototype] and [Array.prototype] lack). Strings are
    [string]s, one character per code unit, which is exact for the ASCII tool
    names and property names of the catalog. *)

From Stdlib Require Import Strings.Ascii Strings.String.
From stdpp Require Import gmap strings list fin_maps pretty.

Local Set Warnings "-register-all".
Local Open Scope string_scope.

(** * Part I: the model *)

(** ** JavaScript values *)

(** The values a tool descriptor is made of: JSON values and [undefined]. *)
Inductive JsValue : Type :=
  | JUndefined
  | JNull
  | JBool (b : bool)
  | JNum (n : Z)
  | JStr (s : string)
  | JArr (l : list JsValue)
  | JObj (m : gmap string JsValue).

(** [!v]: [undefined], [null], [false], [0] and the empty string are falsy. *)
Definition truthy (v : JsValue) : bool :=
  match v with
  | JUndefined | JNull => false
  | JBool b => b
  | JNum n => negb (n =? 0)%Z
  | JStr s => negb (String.eqb s "")
  | JArr _ | JObj _ => true
  end.

(** [typeof v === 'object']: objects, arrays and [null]. *)
Definition typeof_object (v : JsValue) : bool :=
  match v with
  | JNull | JArr _ | JObj _ => true
  | _ => false
  end.

(** [v === undefined || v === null], the test behind [??]. *)
Definition nullish (v : JsValue) : bool :=
  match v with
  | JUndefined | JNull => true
  | _ => false
  end.

(** [a ?? b] *)
Definition nullish_coalesce (a b : JsValue) : JsValue :=
  if nullish a then b else a.

(** The characters of a string, as [Object.entries] and the spread of a string
    enumerate them. *)
Fixpoint chars (s : string) : list string :=
  match s with
  | EmptyString => []
  | String c r => String c EmptyString :: chars r
  end.

(** [Object.entries(v)]: the own enumerable properties of an object, the
    indexed elements of an array or of a string, nothing for the other
    primitives. *)
Definition js_entries (v : JsValue) : list (string * JsValue) :=
  match v with
  | JObj m => map_to_list m
  | JArr l => imap (λ i x, (pretty i, x)) l
  | JStr s => imap (λ i c, (pretty i, JStr c)) (chars s)
  | _ => []
  end.

(** [Object.keys(v)] *)
Definition js_keys (v : JsValue) : list string := (js_entries v).*1.

(** The own enumerable properties [{...v}] copies. *)
Definition own_props (v : JsValue) : gmap string JsValue :=
  match v with
  | JObj m => m
  | _ => list_to_map (js_entries v)
  end.

(** [v.k]: the value of property [k], [undefined] when [v] has none. Only
    used on values that passed the object test. *)
Definition get_prop (v : JsValue) (k : string) : JsValue :=
  default JUndefined (own_props v !! k).

(** ['k' in v], for [v] an object or an array and [k] not an index. *)
Definition has_prop (k : string) (v : JsValue) : bool :=
  match v with
  | JObj m => bool_decide (is_Some (m !! k))
  | _ => false
  end.

(** ** Strings *)

(** [s.includes(t)] on strings. *)
Fixpoint str_includes (t s : string) : bool :=
  String.prefix t s ||
  match s with
  | EmptyString => false
  | String _ r => str_includes t r
  end.

(** [key.replace(/_/g, ' ')] *)
Fixpoint replace_underscores (s : string) : string :=
  match s with
  | EmptyString => EmptyString
  | String c r =>
      String (if Ascii.eqb c "_"%char then " "%char else c) (replace_underscores r)
  end.

(** [name.split(/[_-]/)]: the pieces between separators, empty ones included. *)
Fixpoint split_name (s : string) : list string :=
  match s with
  | EmptyString => [EmptyString]
  | String c r =>
      if Ascii.eqb c "_"%char || Ascii.eqb c "-"%char then
        EmptyString :: split_name r
      else
        match split_name r with
        | [] => [String c EmptyString]
        | seg :: segs => String c seg :: segs
        end
  end.

(** [c.toUpperCase()] on an ASCII character. *)
Definition to_upper (c : ascii) : ascii :=
  let n := Ascii.nat_of_ascii c in
  if (97 <=? n)%nat && (n <=? 122)%nat then Ascii.ascii_of_nat (n - 32) else c.

(** [segment.charAt(0).toUpperCase() + segment.slice(1)] *)
Definition capitalize (segment : string) : string :=
  match segment with
  | EmptyString => EmptyString
  | String c r => String (to_upper c) r
  end.

(** [segments.join(' ')] *)
Fixpoint join_space (segments : list string) : string :=
  match segments with
  | [] => EmptyString
  | [s] => s
  | s :: rest => s +:+ " " +:+ join_space rest
  end.

(** [formatTitleFromName]; [filter(Boolean)] drops the empty segments. *)
Definition formatTitleFromName (name : string) : string :=
  join_space
    (map capitalize
       (List.filter (λ seg, negb (String.eqb seg "")) (split_name name))).

(** ** Configuration snapshot and enablement filter *)

Record Config := mkConfig {
  enabledTools : list string;
  disabledTools : list string;
  documentSupport : string
}.

(** [list.includes(x)] on an array of strings. *)
Fixpoint includes (x : string) (l : list string) : bool :=
  match l with
  | [] => false
  | y :: r => String.eqb y x || includes x r
  end.

(** [list.length > 0] *)
Definition non_empty {A} (l : list A) : bool := (0 <? length l)%nat.

Definition isToolEnabled (config : Config) (toolName : string) : bool :=
  if non_empty (enabledTools config) then
    includes toolName (enabledTools config)
  else if non_empty (disabledTools config) then
    negb (includes toolName (disabledTools config))
  else true.

(** ** Metadata enhancer *)

(** The callback of the [reduce] in [enhanceSchemaWithDescriptions]: what is
    stored under [key]. In [{ description: ..., ...value }] the spread comes
    last, so the properties of [value] win over the generated one. *)
Definition enhanceProperty (key : string) (value : JsValue) : JsValue :=
  if truthy value && typeof_object value && negb (has_prop "description" value)
  then
    JObj (own_props value ∪
          {["description" := JStr ("Value for " +:+ replace_underscores key)]})
  else value.

(** [acc[key] = value] on the accumulator of the [reduce], an ordinary object:
    the assignment creates or replaces the own property [key], except for the
    key [__proto__], which [Object.prototype] answers with a setter: it
    changes the prototype of [acc] (not represented: an object is its own
    properties) and leaves the own properties as they are. *)
Definition assign (key : string) (value : JsValue) (acc : gmap string JsValue)
  : gmap string JsValue :=
  if String.eqb key "__proto__" then acc else <[key := value]> acc.

(** [Object.entries(properties).reduce((acc, [key, value]) => ..., {})] *)
Definition enhanceProperties (properties : JsValue) : gmap string JsValue :=
  foldl (λ acc kv, assign kv.1 (enhanceProperty kv.1 kv.2) acc) ∅
        (js_entries properties).

Definition enhanceSchemaWithDescriptions (schema : JsValue) (title : string)
  : JsValue :=
  if negb (truthy schema) || negb (typeof_object schema) then schema
  else
    let properties :=
      let p := get_prop schema "properties" in
      if truthy p then p else JObj ∅ in
    let enhancedProperties := enhanceProperties properties in
    JObj (<["properties" :=
              if non_empty (js_keys properties) then JObj enhancedProperties
              else properties]>
            (own_props schema ∪
             {["description" :=
                 nullish_coalesce (get_prop schema "description")
                                  (JStr (title +:+ " parameters"))]})).

(** The annotations object of a descriptor: [title] is a string when present;
    [hints] holds the other own properties ([readOnlyHint], ... and whatever
    else the descriptor supplies). *)
Record ToolAnnotations := mkAnnotations {
  title : option string;
  hints : gmap string JsValue
}.

(** A tool descriptor, with the fields of the protocol's [Tool] type that
    [enhanceToolMetadata] returns: [name], optional [description],
    [inputSchema] ([JUndefined] when missing), optional [annotations], and the
    other own properties, which [{...tool}] copies. *)
Record Tool := mkTool {
  name : string;
  description : option string;
  inputSchema : JsValue;
  annotations : option ToolAnnotations;
  extra : gmap string JsValue
}.

(** [/^(get_|list_|find_|resolve_|call_clickup_api|get_workspace_hierarchy)/.test(name)]:
    the expression is anchored at the start only, so each alternative is a
    prefix test. *)
Definition readOnlyPrefixes : list string :=
  ["get_"; "list_"; "find_"; "resolve_"; "call_clickup_api";
   "get_workspace_hierarchy"].

Definition isReadOnlyName (name : string) : bool :=
  existsb (λ p, String.prefix p name) readOnlyPrefixes.

(** The inferred annotation defaults, written before [...tool.annotations]. *)
Definition inferredHints (name : string) : gmap string JsValue :=
  let isReadOnly := isReadOnlyName name in
  <["readOnlyHint" := JBool isReadOnly]>
    (<["destructiveHint" := JBool (negb isReadOnly)]>
       (<["idempotentHint" := JBool isReadOnly]>
          (<["openWorldHint" := JBool (String.eqb name "call_clickup_api")]> ∅))).

Definition enhanceToolMetadata (tool : Tool) : Tool :=
  let toolTitle :=
    default (formatTitleFromName (name tool)) (annotations tool ≫= title) in
  let annotations' :=
    {| title := Some (default toolTitle (annotations tool ≫= title));
       hints := from_option hints ∅ (annotations tool) ∪ inferredHints (name tool) |} in
  {| name := name tool;
     description := Some (default (toolTitle +:+ " tool") (description tool));
     inputSchema := enhanceSchemaWithDescriptions (inputSchema tool) toolTitle;
     annotations := Some annotations';
     extra := extra tool |}.

(** The descriptor of [src/tools/custom-api.ts]. *)
Definition callClickUpApiTool : Tool :=
  let prop (ty descr : string) :=
    JObj (<["type" := JStr ty]> (<["description" := JStr descr]> ∅)) in
  {| name := "call_clickup_api";
     description := Some "Call any ClickUp API endpoint with a raw HTTP request. Useful for dashboards, docs, spaces, tags, custom fields, and other endpoints not covered by dedicated tools.";
     inputSchema :=
       JObj (<["type" := JStr "object"]>
             (<["properties" :=
                  JObj (<["method" := prop "string" "HTTP method (GET, POST, PUT, PATCH, DELETE)"]>
                       (<["path" := prop "string" "API path relative to /api/v2 (e.g., /team/{teamId}/task, /space, /dashboard)"]>
                       (<["query" := prop "object" "Optional query string parameters object"]>
                       (<["body" := prop "object" "Optional request body for POST/PUT/PATCH calls"]>
                       (<["headers" := prop "object" "Optional additional headers to send with the request"]> ∅)))))]>
             (<["required" := JArr [JStr "method"; JStr "path"]]> ∅)));
     annotations := None;
     extra := ∅ |}.

(** ** Promises, raised conditions and the log *)

(** A raised condition as the code reads it: its [name] discriminator (the
    [catch] block compares it with two names) and the text of its [message].
    An [Error] has both; for another value that is not [null] or [undefined]
    they are what reading [name] and [message] off it gives. *)
Record JsError := mkError {
  err_name : string;
  err_message : string
}.

(** What a [throw] or a rejected promise carries: a value with a [name] and
    a [message] to read, or [null] or [undefined], on which reading a
    property throws. *)
Inductive Condition : Type :=
  | ErrorObject (e : JsError)
  | NullThrown
  | UndefinedThrown.

Coercion ErrorObject : JsError >-> Condition.

(** The settled state of a promise. *)
Inductive Outcome (E A : Type) : Type :=
  | Fulfilled (a : A)
  | Rejected (e : E).
Arguments Fulfilled {E A} a.
Arguments Rejected {E A} & e.

(** How the call of a function imported from another module completes: it
    returns a plain value, throws before returning, or returns a promise (an
    [async function] always does, and its failures are rejections). *)
Inductive Completion : Type :=
  | Return (v : JsValue)
  | Throw (e : Condition)
  | ReturnPromise (p : Outcome Condition JsValue).

(** What a request handler of the server rejects with: an object literal
    [{ code, message }] thrown by the handler itself, or a condition that
    reaches the caller as it was raised. *)
Inductive Thrown : Type :=
  | ProtocolError (code : Z) (message : string)
  | Raised (e : Condition).

Inductive LogLevel : Type := LDebug | LInfo | LWarn | LError.

(** A call of a [Logger] method: the logger's context, the level, the message
    (the structured data argument is left out). *)
Record LogEntry := mkLog {
  logger : string;
  level : LogLevel;
  message : string
}.

(** ** Dispatcher *)

(** The handler functions the [switch] of the CallTool handler is bound to,
    one per imported [handle...] function. *)
Inductive HandlerId : Type :=
  | handleGetWorkspaceHierarchy
  | handleCreateTask
  | handleUpdateTask
  | handleMoveTask
  | handleDuplicateTask
  | handleGetTask
  | handleDeleteTask
  | handleGetTaskComments
  | handleCreateTaskComment
  | handleAttachTaskFile
  | handleCreateBulkTasks
  | handleUpdateBulkTasks
  | handleMoveBulkTasks
  | handleDeleteBulkTasks
  | handleGetWorkspaceTasks
  | handleCreateList
  | handleCreateListInFolder
  | handleGetList
  | handleUpdateList
  | handleDeleteList
  | handleCreateFolder
  | handleGetFolder
  | handleUpdateFolder
  | handleDeleteFolder
  | handleGetSpaceTags
  | handleAddTagToTask
  | handleRemoveTagFromTask
  | handleGetTaskTimeEntries
  | handleStartTimeTracking
  | handleStopTimeTracking
  | handleAddTimeEntry
  | handleDeleteTimeEntry
  | handleGetCurrentTimeEntry
  | handleAddTaskDependency
  | handleRemoveTaskDependency
  | handleGetTaskDependencies
  | handleAddBulkDependencies
  | handleCreateDocument
  | handleGetDocument
  | handleListDocuments
  | handleListDocumentPages
  | handleGetDocumentPages
  | handleCreateDocumentPage
  | handleUpdateDocumentPage
  | handleGetWorkspaceMembers
  | handleFindMemberByName
  | handleResolveAssignees
  | handleCallClickUpApi.

(** The [case] labels of the [switch], in source order, each with the handler
    its [return] calls. *)
Definition toolHandlers : list (string * HandlerId) :=
  [("get_workspace_hierarchy", handleGetWorkspaceHierarchy);
   ("create_task", handleCreateTask);
   ("update_task", handleUpdateTask);
   ("move_task", handleMoveTask);
   ("duplicate_task", handleDuplicateTask);
   ("get_task", handleGetTask);
   ("delete_task", handleDeleteTask);
   ("get_task_comments", handleGetTaskComments);
   ("create_task_comment", handleCreateTaskComment);
   ("attach_task_file", handleAttachTaskFile);
   ("create_bulk_tasks", handleCreateBulkTasks);
   ("update_bulk_tasks", handleUpdateBulkTasks);
   ("move_bulk_tasks", handleMoveBulkTasks);
   ("delete_bulk_tasks", handleDeleteBulkTasks);
   ("get_workspace_tasks", handleGetWorkspaceTasks);
   ("create_list", handleCreateList);
   ("create_list_in_folder", handleCreateListInFolder);
   ("get_list", handleGetList);
   ("update_list", handleUpdateList);
   ("delete_list", handleDeleteList);
   ("create_folder", handleCreateFolder);
   ("get_folder", handleGetFolder);
   ("update_folder", handleUpdateFolder);
   ("delete_folder", handleDeleteFolder);
   ("get_space_tags", handleGetSpaceTags);
   ("add_tag_to_task", handleAddTagToTask);
   ("remove_tag_from_task", handleRemoveTagFromTask);
   ("get_task_time_entries", handleGetTaskTimeEntries);
   ("start_time_tracking", handleStartTimeTracking);
   ("stop_time_tracking", handleStopTimeTracking);
   ("add_time_entry", handleAddTimeEntry);
   ("delete_time_entry", handleDeleteTimeEntry);
   ("get_current_time_entry", handleGetCurrentTimeEntry);
   ("add_task_dependency", handleAddTaskDependency);
   ("remove_task_dependency", handleRemoveTaskDependency);
   ("get_task_dependencies", handleGetTaskDependencies);
   ("add_bulk_dependencies", handleAddBulkDependencies);
   ("create_document", handleCreateDocument);
   ("get_document", handleGetDocument);
   ("list_documents", handleListDocuments);
   ("list_document_pages", handleListDocumentPages);
   ("get_document_pages", handleGetDocumentPages);
   ("create_document_page", handleCreateDocumentPage);
   ("update_document_page", handleUpdateDocumentPage);
   ("get_workspace_members", handleGetWorkspaceMembers);
   ("find_member_by_name", handleFindMemberByName);
   ("resolve_assignees", handleResolveAssignees);
   ("call_clickup_api", handleCallClickUpApi)].

(** The [switch (name)]: the first label equal to [name], [None] for the
    [default] branch. *)
Fixpoint switchOn (name : string) (cases : list (string * HandlerId))
  : option HandlerId :=
  match cases with
  | [] => None
  | (label, h) :: rest =>
      if String.eqb name label then Some h else switchOn name rest
  end.

Definition handlerFor (name : string) : option HandlerId :=
  switchOn name toolHandlers.

(** The argument the [switch] passes: [params], except for the two handlers
    it calls without argument. *)
Definition handlerArgument (h : HandlerId) (params : JsValue) : JsValue :=
  match h with
  | handleGetWorkspaceHierarchy | handleGetWorkspaceMembers => JUndefined
  | _ => params
  end.

(** The [catch] block of the CallTool handler on an error object: the error
    it throws for [err]. *)
Definition rewrapError (name : string) (err : JsError) : Thrown :=
  if String.eqb (err_name err) "UnknownToolError" then
    ProtocolError (-32601) ("Method not found: " +:+ name)
  else if String.eqb (err_name err) "ValidationError" then
    ProtocolError (-32602)
      ("Invalid params for tool " +:+ name +:+ ": " +:+ err_message err)
  else
    ProtocolError (-32000)
      ("Error executing tool " +:+ name +:+ ": " +:+ err_message err).

(** The [TypeError] of reading [name] off [null] or [undefined], with the
    message Node gives it. *)
Definition nameOfNullish (what : string) : JsError :=
  mkError "TypeError"
          ("Cannot read properties of " +:+ what +:+ " (reading 'name')").

(** The [catch] block on whatever was thrown: on [null] and [undefined] the
    test [err.name === ...] itself throws, and that [TypeError] rejects the
    request. *)
Definition catchBlock (name : string) (raised : Condition) : Thrown :=
  match raised with
  | ErrorObject err => rewrapError name err
  | NullThrown => Raised (nameOfNullish "null")
  | UndefinedThrown => Raised (nameOfNullish "undefined")
  end.

Section Dispatcher.

(** The state behind the handlers (the backend and the caches of the
    services), and the handlers themselves: the tool modules are outside
    this development. A handler maps its argument and the state to its
    completion and the state it leaves. *)
Variable World : Type.
Variable handlers : HandlerId → JsValue → World → Completion * World.

(** [invoked] records the handler calls, as a spy on the handlers would. *)
Record DispatchState := mkDispatch {
  world : World;
  invoked : list (HandlerId * JsValue);
  dlog : list LogEntry
}.

Definition logServer (lv : LogLevel) (msg : string) (st : DispatchState)
  : DispatchState :=
  {| world := world st; invoked := invoked st;
     dlog := dlog st ++ [mkLog "Server" lv msg] |}.

(** The message of the error thrown for a tool that is not enabled. *)
Definition blockedReason (config : Config) (name : string) : string :=
  if non_empty (enabledTools config)
  then "Tool '" +:+ name +:+ "' is not in the enabled tools list."
  else "Tool '" +:+ name +:+ "' is disabled.".

(** The CallTool request handler. It is an [async] function: what it throws
    rejects its promise, what it returns resolves it. Inside [try] every case
    is [return handle...(params)], without [await]: the call is evaluated
    inside [try], so the [catch] block receives what the handler throws while
    it is called; a promise the handler returns leaves [try] as an ordinary
    return value and the promise of the request takes its state, fulfilled or
    rejected, without passing through [catch]. *)
Definition callToolHandler (config : Config) (name : string) (params : JsValue)
           (st : DispatchState) : Outcome Thrown JsValue * DispatchState :=
  let st := logServer LInfo ("Received CallTool request for tool: " +:+ name) st in
  if negb (isToolEnabled config name) then
    let reason := blockedReason config name in
    (Rejected (ProtocolError (-32601) reason),
     logServer LWarn ("Tool execution blocked: " +:+ reason) st)
  else
    match handlerFor name with
    | Some h =>
        let arg := handlerArgument h params in
        let '(completion, w) := handlers h arg (world st) in
        let st := {| world := w; invoked := invoked st ++ [(h, arg)];
                     dlog := dlog st |} in
        match completion with
        | Return v => (Fulfilled v, st)
        | ReturnPromise (Fulfilled v) => (Fulfilled v, st)
        | ReturnPromise (Rejected e) => (Rejected (Raised e), st)
        | Throw raised =>
            (Rejected (catchBlock name raised),
             logServer LError ("Error executing tool: " +:+ name) st)
        end
    | None =>
        let st := logServer LError ("Unknown tool requested: " +:+ name) st in
        let error := mkError "UnknownToolError" ("Unknown tool: " +:+ name) in
        (Rejected (rewrapError name error),
         logServer LError ("Error executing tool: " +:+ name) st)
    end.

(** [documentModule()] over the seven document descriptors. *)
Definition documentModule (config : Config) (documentTools : list Tool)
  : list Tool :=
  if String.eqb (documentSupport config) "true" then documentTools else [].

(** The ListTools request handler. [baseTools] are the descriptors listed
    before [callClickUpApiTool], [documentTools] those of the document
    module; both come from the tool modules. *)
Definition listToolsHandler (config : Config) (baseTools documentTools : list Tool)
  : list Tool :=
  map enhanceToolMetadata
      (List.filter (λ tool, isToolEnabled config (name tool))
                   (baseTools ++ [callClickUpApiTool] ++
                    documentModule config documentTools)).

End Dispatcher.

Arguments world {World} _.
Arguments invoked {World} _.
Arguments dlog {World} _.
Arguments mkDispatch {World} _ _ _.
Arguments logServer {World} lv msg st.
Arguments callToolHandler {World} handlers config name params st.

(** ** Server configuration and cache prewarm *)

(** The request schemas [configureServer] registers a handler for. *)
Inductive RequestKind : Type :=
  | ListToolsRequestSchema
  | ListResourcesRequestSchema
  | CallToolRequestSchema
  | ListPromptsRequestSchema
  | GetPromptRequestSchema.

(** A continuation that waits in the job queue: the rest of the prewarm after
    its [await], and the callback given to [.catch] on the prewarm promise. *)
Inductive Reaction : Type :=
  | ResumePrewarm
  | PrewarmCatch (p : Outcome Condition unit).

(** The module state of [server.ts] and [services/shared.ts]:
    [isServerConfigured]; the calls of [server.setRequestHandler], in order
    (the state of the exported [server] object); [prewarmPromise], with the
    way the promise settles; the continuations not run yet; the log, as far
    as loading the modules, [configureServer] and the prewarm write it. *)
Record ServerState := mkServer {
  isServerConfigured : bool;
  requestHandlers : list RequestKind;
  prewarmPromise : option (Outcome Condition unit);
  reactions : list Reaction;
  slog : list LogEntry
}.

(** What [services/shared.ts] logs when it is loaded: its last statements
    call [getClickUpServices()], which creates the services and logs before
    and after. [server.ts] imports that module, so both entries precede
    every call of [configureServer]. *)
Definition sharedModuleLoaded : list LogEntry :=
  [mkLog "SharedServices" LInfo "Creating shared ClickUp services singleton";
   mkLog "SharedServices" LInfo "Services initialization complete"].

(** The state a process starts in, once the two modules are loaded. *)
Definition initialServer : ServerState :=
  {| isServerConfigured := false; requestHandlers := [];
     prewarmPromise := None; reactions := []; slog := sharedModuleLoaded |}.

Definition logTo (context : string) (lv : LogLevel) (msg : string)
           (st : ServerState) : ServerState :=
  {| isServerConfigured := isServerConfigured st;
     requestHandlers := requestHandlers st;
     prewarmPromise := prewarmPromise st;
     reactions := reactions st;
     slog := slog st ++ [mkLog context lv msg] |}.

(** [server.setRequestHandler(schema, ...)] *)
Definition setRequestHandler (schema : RequestKind) (st : ServerState)
  : ServerState :=
  {| isServerConfigured := isServerConfigured st;
     requestHandlers := requestHandlers st ++ [schema];
     prewarmPromise := prewarmPromise st;
     reactions := reactions st;
     slog := slog st |}.

Definition enqueue (r : Reaction) (st : ServerState) : ServerState :=
  {| isServerConfigured := isServerConfigured st;
     requestHandlers := requestHandlers st;
     prewarmPromise := prewarmPromise st;
     reactions := reactions st ++ [r];
     slog := slog st |}.

Definition setPrewarmPromise (p : Outcome Condition unit) (st : ServerState)
  : ServerState :=
  {| isServerConfigured := isServerConfigured st;
     requestHandlers := requestHandlers st;
     prewarmPromise := Some p;
     reactions := reactions st;
     slog := slog st |}.

(** [prewarmClickUpCaches()], up to the point where it returns its promise.
    [workspacePrewarm] is how [workspaceService.prewarmCaches()] completes and
    [taskPrewarm] how [taskService.prewarmCaches?.()] does ([None] when the
    method is missing). The body of the inner [async] function runs up to its
    [await]: a call that throws rejects the promise; otherwise
    [Promise.allSettled] waits for both results, whatever they are, and the
    function resumes later. *)
Definition prewarmClickUpCaches (workspacePrewarm : Completion)
           (taskPrewarm : option Completion) (st : ServerState)
  : Outcome Condition unit * ServerState :=
  match prewarmPromise st with
  | Some p => (p, st)
  | None =>
      let st := logTo "SharedServices" LInfo
                      "Starting background ClickUp cache prewarm" st in
      match workspacePrewarm with
      | Throw e => (Rejected e, setPrewarmPromise (Rejected e) st)
      | _ =>
          match taskPrewarm with
          | Some (Throw e) => (Rejected e, setPrewarmPromise (Rejected e) st)
          | _ =>
              (Fulfilled tt,
               enqueue ResumePrewarm (setPrewarmPromise (Fulfilled tt) st))
          end
      end
  end.

(** [configureServer()]; the result is the state of [server]. The promise of
    [prewarmClickUpCaches().catch(...)] is dropped: nothing waits for it. *)
Definition configureServer (workspacePrewarm : Completion)
           (taskPrewarm : option Completion) (st : ServerState) : ServerState :=
  if isServerConfigured st then
    logTo "Server" LDebug
          "Server already configured - skipping duplicate handler registration" st
  else
    let st :=
      {| isServerConfigured := true;
         requestHandlers := requestHandlers st;
         prewarmPromise := prewarmPromise st;
         reactions := reactions st;
         slog := slog st |} in
    let st := logTo "Server" LInfo "Registering server request handlers" st in
    let '(p, st) := prewarmClickUpCaches workspacePrewarm taskPrewarm st in
    let st := enqueue (PrewarmCatch p) st in
    let st := setRequestHandler ListToolsRequestSchema st in
    let st := setRequestHandler ListResourcesRequestSchema st in
    let st := logTo "Server" LInfo "Registering tool handlers" st in
    let st := setRequestHandler CallToolRequestSchema st in
    let st := setRequestHandler ListPromptsRequestSchema st in
    let st := setRequestHandler GetPromptRequestSchema st in
    st.

(** Running one waiting continuation. *)
Definition runReaction (st : ServerState) (r : Reaction) : ServerState :=
  match r with
  | ResumePrewarm =>
      logTo "SharedServices" LInfo "Completed ClickUp cache prewarm" st
  | PrewarmCatch (Rejected _) => logTo "Server" LWarn "Cache prewarm failed" st
  | PrewarmCatch (Fulfilled _) => st
  end.

(** The job queue runs until it is empty. *)
Definition drain (st : ServerState) : ServerState :=
  let st' := foldl runReaction st (reactions st) in
  {| isServerConfigured := isServerConfigured st';
     requestHandlers := requestHandlers st';
     prewarmPromise := prewarmPromise st';
     reactions := [];
     slog := slog st' |}.

(** The handlers registered by the first call, in order. *)
Definition registeredByConfigure : list RequestKind :=
  [ListToolsRequestSchema; ListResourcesRequestSchema; CallToolRequestSchema;
   ListPromptsRequestSchema; GetPromptRequestSchema].

Global Instance RequestKind_eq_dec : EqDecision RequestKind.
Proof. solve_decision. Defined.

(** ** The configured server at work *)

(** A protocol request. *)
Inductive Request : Type :=
  | ListTools
  | ListResources
  | CallTool (name : string) (params : JsValue)
  | ListPrompts
  | GetPrompt.

Definition requestKind (req : Request) : RequestKind :=
  match req with
  | ListTools => ListToolsRequestSchema
  | ListResources => ListResourcesRequestSchema
  | CallTool _ _ => CallToolRequestSchema
  | ListPrompts => ListPromptsRequestSchema
  | GetPrompt => GetPromptRequestSchema
  end.

(** What a request is answered with: the tool list, the settled promise of
    another handler, or nothing when no handler is registered for it (the
    protocol library then answers by itself). *)
Inductive Response : Type :=
  | ToolList (tools : list Tool)
  | Settled (o : Outcome Thrown JsValue)
  | NoHandler.

Section Serving.

Variable World : Type.
Variable handlers : HandlerId → JsValue → World → Completion * World.
Variable config : Config.
Variables baseTools documentTools : list Tool.

(** The registered handler of the request runs. *)
Definition serve (srv : ServerState) (req : Request) (st : DispatchState World)
  : Response * DispatchState World :=
  if bool_decide (requestKind req ∈ requestHandlers srv) then
    match req with
    | ListTools =>
        (ToolList (listToolsHandler config baseTools documentTools),
         logServer LDebug "Received ListTools request" st)
    | ListResources =>
        (Settled (Fulfilled (JObj {["resources" := JArr []]})),
         logServer LDebug "Received ListResources request" st)
    | CallTool name params =>
        let '(o, st) := callToolHandler handlers config name params st in
        (Settled o, st)
    | ListPrompts =>
        (Settled (Fulfilled (JObj {["prompts" := JArr []]})),
         logServer LInfo "Received ListPrompts request" st)
    | GetPrompt =>
        (Settled (Rejected (Raised (mkError "Error" "Prompt not found"))),
         logServer LError
           "Received GetPrompt request, but prompts are not supported" st)
    end
  else (NoHandler, st).

(** What happens in a process: [configureServer] is called (with the way
    the two prewarm calls would complete), the job queue runs, a request
    arrives. *)
Inductive Event : Type :=
  | Configure (workspacePrewarm : Completion) (taskPrewarm : option Completion)
  | RunJobs
  | Receive (req : Request).

Definition step (sys : ServerState * DispatchState World) (ev : Event)
  : ServerState * DispatchState World :=
  match ev with
  | Configure ws ts => (configureServer ws ts sys.1, sys.2)
  | RunJobs => (drain sys.1, sys.2)
  | Receive req => (sys.1, (serve sys.1 req sys.2).2)
  end.

Definition run (events : list Event) (sys : ServerState * DispatchState World)
  : ServerState * DispatchState World :=
  foldl step sys events.

End Serving.

Arguments serve {World} handlers config baseTools documentTools srv req st.
Arguments step {World} handlers config baseTools documentTools sys ev.
Arguments run {World} handlers config baseTools documentTools events sys.

(** ** Notions used in the statements *)

(** An object-valued schema or property: it passes [v && typeof v === 'object']. *)
Definition is_object (v : JsValue) : bool := truthy v && typeof_object v.

(** The test of the reduce callback. *)
Definition injectable (v : JsValue) : bool :=
  truthy v && typeof_object v && negb (has_prop "description" v).

(** [schema.properties || {}] *)
Definition propertiesOf (schema : JsValue) : JsValue :=
  let p := get_prop schema "properties" in if truthy p then p else JObj ∅.

(** The value the result holds under [properties]. *)
Definition resultProperties (schema : JsValue) : JsValue :=
  if non_empty (js_keys (propertiesOf schema))
  then JObj (enhanceProperties (propertiesOf schema))
  else propertiesOf schema.

(** Array indices are written in decimal: they start with a digit. *)
Definition is_digit (c : ascii) : bool :=
  let n := Ascii.nat_of_ascii c in (48 <=? n)%nat && (n <=? 57)%nat.

Definition starts_with_digit (s : string) : bool :=
  match s with
  | EmptyString => false
  | String c _ => is_digit c
  end.

(** Read-only inference in the words of the specification: one of four
    prefixes, or one of two exact names. *)
Definition specReadOnly (n : string) : bool :=
  String.prefix "get_" n || String.prefix "list_" n ||
  String.prefix "find_" n || String.prefix "resolve_" n ||
  String.eqb n "call_clickup_api" || String.eqb n "get_workspace_hierarchy".

(** ** Concrete inputs *)

(** A schema without [properties], as a tool without parameters has it. *)
Definition bareSchema : JsValue := JObj {["type" := JStr "object"]}.

(** Handlers that all complete in the same way and count their calls. *)
Definition constHandlers (c : Completion)
  : HandlerId → JsValue → nat → Completion * nat :=
  λ _ _ calls, (c, S calls).

Definition openConfig : Config := mkConfig [] [] "false".
Definition allowOnlyGetTask : Config := mkConfig ["get_task"] [] "false".
Definition idle : DispatchState nat := mkDispatch 0%nat [] [].

Definition networkDown : JsError := mkError "Error" "network down".

(** ** Generic API passthrough *)

(** [RawApiRequestOptions] of [services/clickup/custom.ts]; the tool handler
    fills it from the request arguments, so each field is whatever value the
    client sent. *)
Module RawApiRequestOptions.
Record t := mk {
  method : JsValue;
  path : JsValue;
  query : JsValue;
  body : JsValue;
  headers : JsValue
}.
End RawApiRequestOptions.

(** The configuration object given to [this.client.request]. *)
Module ClientRequest.
Record t := mk {
  method : string;
  url : string;
  params : JsValue;
  data : JsValue;
  headers : JsValue
}.
End ClientRequest.

(** The fields of the client's response that [callApi] reads. *)
Module ClientResponse.
Record t := mk {
  status : JsValue;
  data : JsValue;
  headers : JsValue
}.
End ClientResponse.

(** [RawApiResponse] *)
Module RawApiResponse.
Record t := mk {
  status : JsValue;
  data : JsValue;
  headers : JsValue;
  path : string;
  method : string
}.
End RawApiResponse.

(** The member of [ErrorCode] that [callApi] uses. *)
Inductive ErrorCode : Type := INVALID_PARAMETER.

(** What the passthrough fails with: a [ClickUpServiceError] it throws
    itself, the [TypeError] of calling [toUpperCase] on a method that is not
    a string, or a condition raised by code outside these files (the shared
    request pipeline, the sponsor service). *)
Inductive ApiFailure : Type :=
  | ClickUpServiceError (message : string) (code : ErrorCode)
  | MethodNotAString
  | External (e : JsError).

(** [c.toLowerCase()] on an ASCII character. *)
Definition to_lower (c : ascii) : ascii :=
  let n := Ascii.nat_of_ascii c in
  if (65 <=? n)%nat && (n <=? 90)%nat then Ascii.ascii_of_nat (n + 32) else c.

Fixpoint lower (s : string) : string :=
  match s with
  | EmptyString => EmptyString
  | String c r => String (to_lower c) (lower r)
  end.

(** [/^https?:\/\//i.test(path)]: the flag [i] lets the ASCII letters match in
    either case. *)
Definition isAbsoluteUrl (path : string) : bool :=
  String.prefix "http://" (lower path) || String.prefix "https://" (lower path).

Definition supportedMethods : list string :=
  ["GET"; "POST"; "PUT"; "PATCH"; "DELETE"].

Section CustomRequestService.

(** [String.prototype.toUpperCase], and
    [this.makeRequest(() => this.client.request(config))] of the base
    service: the response, or the condition it throws. *)
Variable toUpperCase : string → string.
Variable makeRequest : ClientRequest.t → Outcome JsError ClientResponse.t.

(** [CustomRequestService.callApi]: how its promise settles, and the requests
    it handed to [makeRequest]. *)
Definition callApi (options : RawApiRequestOptions.t)
  : Outcome ApiFailure RawApiResponse.t * list ClientRequest.t :=
  let invalid (message : string) :=
    (Rejected (ClickUpServiceError message INVALID_PARAMETER), []) in
  match RawApiRequestOptions.method options with
  | JUndefined | JNull => invalid "HTTP method is required"
  | JStr method =>
      let normalizedMethod := toUpperCase method in
      if String.eqb normalizedMethod "" then invalid "HTTP method is required"
      else if negb (includes normalizedMethod supportedMethods) then
        invalid ("Unsupported HTTP method: " +:+ method +:+
                 ". Use GET, POST, PUT, PATCH, or DELETE.")
      else
        match RawApiRequestOptions.path options with
        | JStr path =>
            if String.eqb path "" then invalid "API path is required"
            else if isAbsoluteUrl path then
              invalid "Provide ClickUp API paths relative to the API root (e.g., /team/{teamId}/goal)"
            else
              let normalizedPath :=
                if String.prefix "/" path then path else "/" +:+ path in
              let request :=
                {| ClientRequest.method := normalizedMethod;
                   ClientRequest.url := normalizedPath;
                   ClientRequest.params := RawApiRequestOptions.query options;
                   ClientRequest.data := RawApiRequestOptions.body options;
                   ClientRequest.headers := RawApiRequestOptions.headers options |} in
              match makeRequest request with
              | Fulfilled response =>
                  (Fulfilled
                     {| RawApiResponse.status := ClientResponse.status response;
                        RawApiResponse.data := ClientResponse.data response;
                        RawApiResponse.headers := ClientResponse.headers response;
                        RawApiResponse.path := normalizedPath;
                        RawApiResponse.method := normalizedMethod |},
                   [request])
              | Rejected e => (Rejected (External e), [request])
              end
        | _ => invalid "API path is required"
        end
  | _ => (Rejected MethodNotAString, [])
  end.

(** How [sponsorService.addSponsorMessageIfNeeded()] completes: [None] when
    it returns. *)
Variable addSponsorMessageIfNeeded : option JsError.

(** [handleCallClickUpApi] of [tools/custom-api.ts], an [async function]:
    how its promise settles, and the requests issued. *)
Definition handleCallClickUpApiImpl (params : JsValue)
  : Outcome ApiFailure JsValue * list ClientRequest.t :=
  match addSponsorMessageIfNeeded with
  | Some e => (Rejected (External e), [])
  | None =>
      let source := if truthy params then params else JObj ∅ in
      let '(settled, issued) :=
        callApi {| RawApiRequestOptions.method := get_prop source "method";
                   RawApiRequestOptions.path := get_prop source "path";
                   RawApiRequestOptions.query := get_prop source "query";
                   RawApiRequestOptions.body := get_prop source "body";
                   RawApiRequestOptions.headers := get_prop source "headers" |} in
      match settled with
      | Fulfilled response =>
          (Fulfilled
             (JObj (<["status" := RawApiResponse.status response]>
                   (<["path" := JStr (RawApiResponse.path response)]>
                   (<["method" := JStr (RawApiResponse.method response)]>
                   (<["headers" := RawApiResponse.headers response]>
                   (<["data" := RawApiResponse.data response]> ∅)))))),
           issued)
      | Rejected failure => (Rejected failure, issued)
      end
  end.

(** The error object of a failure; the error classes are outside these
    files. *)
Variable errorObject : ApiFailure → JsError.

(** A handler table whose [handleCallClickUpApi] is the function above; the
    state behind the handlers is the list of requests issued so far. *)
Definition withCallClickUpApi
           (others : HandlerId → JsValue → list ClientRequest.t →
                     Completion * list ClientRequest.t)
  : HandlerId → JsValue → list ClientRequest.t →
    Completion * list ClientRequest.t :=
  λ h arg issued,
    match h with
    | handleCallClickUpApi =>
        let '(settled, new) := handleCallClickUpApiImpl arg in
        (ReturnPromise
           match settled with
           | Fulfilled v => Fulfilled v
           | Rejected failure => Rejected (errorObject failure)
           end,
         (issued ++ new)%list)
    | _ => others h arg issued
    end.

End CustomRequestService.

(** ** Task cache prewarm *)

(** The object kept in [TaskService._taskCache]. *)
Module TaskCache.
Record t := mk {
  tasks : JsValue;
  lastFetch : Z;
  cacheTTL : Z
}.
End TaskCache.

(** [await call] inside [try]: the value delivered, or nothing when the call
    throws or its promise rejects. *)
Definition delivered (c : Completion) : option JsValue :=
  match c with
  | Return v | ReturnPromise (Fulfilled v) => Some v
  | Throw _ | ReturnPromise (Rejected _) => None
  end.

(** ['tasks' in response ? response.tasks : []]; [in] throws on a value that
    is not an object ([None]). *)
Definition tasksOf (response : JsValue) : option JsValue :=
  match response with
  | JObj m => Some (default (JArr []) (m !! "tasks"))
  | JArr _ => Some (JArr [])
  | _ => None
  end.

(** [TaskService.prewarmCaches()]: the cache it leaves and the [status] of
    its [logOperation] calls. [getWorkspaceTasks] is how the call of that
    method completes and [now] the value of [Date.now()]. Everything after
    the first log entry runs inside [try], and the [catch] block only logs:
    the promise of the method is fulfilled. *)
Definition prewarmCaches (getWorkspaceTasks : Completion) (now : Z)
           (cache : option TaskCache.t) : option TaskCache.t * list string :=
  match delivered getWorkspaceTasks ≫= tasksOf with
  | None => (cache, ["starting"; "failed"])
  | Some tasks =>
      let current :=
        default {| TaskCache.tasks := JArr []; TaskCache.lastFetch := 0;
                   TaskCache.cacheTTL := 60000 |} cache in
      let cache' :=
        Some {| TaskCache.tasks := tasks; TaskCache.lastFetch := now;
                TaskCache.cacheTTL := TaskCache.cacheTTL current |} in
      (* [tasks.length], read for the last log entry, throws on a nullish [tasks] *)
      if nullish tasks then (cache', ["starting"; "failed"])
      else (cache', ["starting"; "completed"])
  end.

(** ** Notions used in the statements of the further properties *)

(** The separators of [formatTitleFromName]. *)
Definition is_separator (c : ascii) : bool :=
  Ascii.eqb c "_"%char || Ascii.eqb c "-"%char.

(** Every character of [s] satisfies [P]. *)
Fixpoint all_chars (P : ascii → bool) (s : string) : bool :=
  match s with
  | EmptyString => true
  | String c r => P c && all_chars P r
  end.

(** The tools a discovery request chooses from. *)
Definition catalog (config : Config) (baseTools documentTools : list Tool)
  : list Tool :=
  baseTools ++ [callClickUpApiTool] ++ documentModule config documentTools.

(** The four behavioural hints. *)
Definition hintNames : list string :=
  ["readOnlyHint"; "destructiveHint"; "idempotentHint"; "openWorldHint"].

(** ASCII upper-casing of a string, an instance of [toUpperCase]. *)
Fixpoint upper (s : string) : string :=
  match s with
  | EmptyString => EmptyString
  | String c r => String (to_upper c) (upper r)
  end.

(** A request pipeline that answers every request with status 200. *)
Definition okRequest : ClientRequest.t → Outcome JsError ClientResponse.t :=
  λ _, Fulfilled {| ClientResponse.status := JNum 200;
                    ClientResponse.data := JNull;
                    ClientResponse.headers := JObj ∅ |}.

(** Error objects for the failures of the passthrough. *)
Definition plainError (failure : ApiFailure) : JsError :=
  match failure with
  | ClickUpServiceError text _ => mkError "ClickUpServiceError" text
  | MethodNotAString => mkError "TypeError" "toUpperCase is not a function"
  | External e => e
  end.

(** Handlers over the issued requests that return [null]. *)
Definition nullHandlers
  : HandlerId → JsValue → list ClientRequest.t →
    Completion * list ClientRequest.t :=
  λ _ _ issued, (Return JNull, issued).

(** One of the two prewarm calls throws while it is called. *)
Definition prewarmThrows (workspacePrewarm : Completion)
           (taskPrewarm : option Completion) : bool :=
  match workspacePrewarm, taskPrewarm with
  | Throw _, _ => true
  | _, Some (Throw _) => true
  | _, _ => false
  end.

Global Instance HandlerId_eq_dec : EqDecision HandlerId.
Proof. solve_decision. Defined.

(** * Part II: properties *)

(** ** The enablement filter *)

Lemma includes_elem_of x l : includes x l = true ↔ x ∈ l.
Proof.
  induction l as [|y r IH]; simpl.
  - split; [discriminate | by intros ?%elem_of_nil].
  - rewrite orb_true_iff, IH, elem_of_cons, String.eqb_eq. intuition congruence.
Qed.

Lemma non_empty_true {A} (l : list A) : non_empty l = true ↔ l ≠ [].
Proof. destruct l; unfold non_empty; simpl; split; (done || congruence). Qed.

Lemma non_empty_nil {A} : @non_empty A [] = false.
Proof. reflexivity. Qed.

(** C1. Allow-list first: when [enabledTools] is non-empty a name is enabled
    iff it is listed there, whatever [disabledTools] holds; otherwise, when
    [disabledTools] is non-empty, iff it is not listed there; otherwise every
    name is enabled. *)
Theorem isToolEnabled_precedence (config : Config) (n : string) :
  (enabledTools config ≠ [] →
     (isToolEnabled config n = true ↔ n ∈ enabledTools config) ∧
     ∀ denied doc,
       isToolEnabled (mkConfig (enabledTools config) denied doc) n =
       isToolEnabled config n) ∧
  (enabledTools config = [] → disabledTools config ≠ [] →
     (isToolEnabled config n = true ↔ n ∉ disabledTools config)) ∧
  (enabledTools config = [] → disabledTools config = [] →
     isToolEnabled config n = true).
Proof.
  unfold isToolEnabled. split; [|split].
  - intros Hne%non_empty_true. split.
    + rewrite Hne. apply includes_elem_of.
    + intros denied doc. simpl. by rewrite Hne.
  - intros -> Hne%non_empty_true. rewrite non_empty_nil, Hne, negb_true_iff.
    rewrite <- includes_elem_of. by destruct (includes n _).
  - by intros -> ->.
Qed.

(** ** The schema enhancer *)

Section SchemaEnhancer.

Implicit Types (v schema properties : JsValue) (k key : string).
Implicit Types (m ps : gmap string JsValue).

Lemma indexed_keys_NoDup {A} (g : nat → A → JsValue) (l : list A) :
  NoDup (imap (λ i x, (pretty i, g i x)) l).*1.
Proof.
  rewrite fmap_imap.
  rewrite (imap_ext _ (λ i _, pretty i)) by done.
  rewrite imap_seq_0. apply NoDup_fmap_2; [apply _ | apply NoDup_seq].
Qed.

Lemma js_entries_NoDup v : NoDup (js_entries v).*1.
Proof.
  destruct v; simpl; try apply NoDup_nil_2.
  - apply (indexed_keys_NoDup (λ _ c, JStr c)).
  - apply (indexed_keys_NoDup (λ _ x, x)).
  - apply NoDup_fst_map_to_list.
Qed.

Lemma own_props_entries v : own_props v = list_to_map (js_entries v).
Proof. destruct v; try reflexivity. simpl. by rewrite list_to_map_to_list. Qed.

Lemma assign_proto v (acc : gmap string JsValue) :
  assign "__proto__" v acc = acc.
Proof. done. Qed.

Lemma assign_other key v (acc : gmap string JsValue) :
  key ≠ "__proto__" → assign key v acc = <[key := v]> acc.
Proof.
  intros Hk. unfold assign.
  destruct (String.eqb_spec key "__proto__"); [done|done].
Qed.

Lemma lookup_assign_ne key v (acc : gmap string JsValue) k :
  key ≠ k → assign key v acc !! k = acc !! k.
Proof.
  intros Hk. unfold assign. destruct (String.eqb key "__proto__"); [done|].
  by rewrite lookup_insert_ne.
Qed.

Lemma lookup_assign_proto key v (acc : gmap string JsValue) :
  assign key v acc !! "__proto__" = acc !! "__proto__".
Proof.
  unfold assign. destruct (String.eqb key "__proto__") eqn:Hk; [done|].
  apply String.eqb_neq in Hk. by rewrite lookup_insert_ne.
Qed.

(** A left fold that assigns [f key value] for every key of a list without
    repeated keys builds the map of the list with [f] applied, less the key
    [__proto__]. *)
Lemma lookup_foldl_assign (f : string → JsValue → JsValue)
      (l : list (string * JsValue)) (acc : gmap string JsValue) k :
  NoDup l.*1 →
  foldl (λ acc kv, assign kv.1 (f kv.1 kv.2) acc) acc l !! k =
  if String.eqb k "__proto__" then acc !! k
  else match (list_to_map l : gmap string JsValue) !! k with
       | Some v => Some (f k v)
       | None => acc !! k
       end.
Proof.
  revert acc. induction l as [|[k0 v0] l IH]; intros acc Hnd; simpl.
  - rewrite lookup_empty. by destruct (String.eqb k "__proto__").
  - apply NoDup_cons in Hnd as [Hk0 Hnd]. rewrite IH by done.
    destruct (String.eqb k "__proto__") eqn:Hp.
    + apply String.eqb_eq in Hp. subst k. apply lookup_assign_proto.
    + apply String.eqb_neq in Hp. destruct (decide (k0 = k)) as [->|Hne].
      * rewrite lookup_insert_eq.
        rewrite (not_elem_of_list_to_map_1 l k) by done.
        rewrite assign_other by done. by rewrite lookup_insert_eq.
      * rewrite lookup_insert_ne by done.
        by rewrite lookup_assign_ne by done.
Qed.

Lemma lookup_enhanceProperties properties k :
  enhanceProperties properties !! k =
  if String.eqb k "__proto__" then None
  else enhanceProperty k <$> own_props properties !! k.
Proof.
  unfold enhanceProperties.
  rewrite lookup_foldl_assign by apply js_entries_NoDup.
  rewrite own_props_entries, lookup_empty.
  destruct (String.eqb k "__proto__"); [done|].
  by destruct (list_to_map (js_entries properties) !! k).
Qed.

Lemma lookup_enhanceProperties_other properties k :
  k ≠ "__proto__" →
  enhanceProperties properties !! k =
  enhanceProperty k <$> own_props properties !! k.
Proof.
  intros Hk. rewrite lookup_enhanceProperties.
  by destruct (String.eqb_spec k "__proto__").
Qed.

Lemma js_keys_empty properties :
  non_empty (js_keys properties) = false ↔ own_props properties = ∅.
Proof.
  rewrite own_props_entries. unfold non_empty, js_keys.
  rewrite length_fmap. destruct (js_entries properties) as [|[k v] l]; simpl.
  - done.
  - split; [done|]. intros H. apply (f_equal (λ m, m !! k)) in H.
    by rewrite lookup_insert_eq, lookup_empty in H.
Qed.

Lemma pretty_N_char_digit x : is_digit (pretty_N_char x) = true.
Proof. unfold pretty_N_char. by repeat case_match. Qed.

Lemma pretty_N_go_digit x s :
  (x ≠ 0%N ∨ starts_with_digit s = true) →
  starts_with_digit (pretty_N_go x s) = true.
Proof.
  revert s. induction (N.lt_wf_0 x) as [x _ IH]; intros s Hs.
  destruct (decide (x = 0%N)) as [->|Hx].
  - rewrite pretty_N_go_0. by destruct Hs.
  - rewrite pretty_N_go_step by lia. apply IH.
    + apply N.div_lt; lia.
    + right. simpl. apply pretty_N_char_digit.
Qed.

Lemma pretty_nat_digit (i : nat) : starts_with_digit (pretty i) = true.
Proof.
  unfold pretty, pretty_nat, pretty, pretty_N.
  case_decide; [done|]. apply pretty_N_go_digit. by left.
Qed.

Lemma indexed_lookup_description {A} (g : nat → A → JsValue) (l : list A) :
  (list_to_map (imap (λ i x, (pretty i, g i x)) l) : gmap string JsValue)
    !! "description" = None.
Proof.
  apply not_elem_of_list_to_map_1. rewrite fmap_imap.
  rewrite (imap_ext _ (λ i _, pretty i)) by done.
  rewrite imap_seq_0. intros (i & Hi & _)%list_elem_of_fmap.
  pose proof (pretty_nat_digit i) as Hd. by rewrite <- Hi in Hd.
Qed.

Lemma has_prop_description v :
  has_prop "description" v = false → own_props v !! "description" = None.
Proof.
  destruct v; simpl; intros Hv; try apply lookup_empty.
  - apply (indexed_lookup_description (λ _ c, JStr c)).
  - apply (indexed_lookup_description (λ _ x, x)).
  - apply bool_decide_eq_false in Hv. by apply eq_None_not_Some.
Qed.

Lemma enhanceProperty_injectable key v :
  injectable v = true →
  enhanceProperty key v =
  JObj (<["description" := JStr ("Value for " +:+ replace_underscores key)]>
          (own_props v)).
Proof.
  unfold enhanceProperty, injectable. intros Hv. rewrite Hv. f_equal.
  rewrite insert_union_singleton_r; [done|].
  apply has_prop_description.
  apply andb_prop in Hv as [_ Hv]. by apply negb_true_iff.
Qed.

Lemma enhanceProperty_not_injectable key v :
  injectable v = false → enhanceProperty key v = v.
Proof. unfold enhanceProperty, injectable. by intros ->. Qed.

Lemma enhanceProperty_idemp key v :
  enhanceProperty key (enhanceProperty key v) = enhanceProperty key v.
Proof.
  destruct (injectable v) eqn:Hv.
  - rewrite (enhanceProperty_injectable _ v) by done.
    apply enhanceProperty_not_injectable. unfold injectable. simpl.
    rewrite bool_decide_eq_true_2; [done|].
    rewrite lookup_insert_eq. eauto.
  - rewrite (enhanceProperty_not_injectable key v) by done.
    by apply enhanceProperty_not_injectable.
Qed.

Lemma union_singleton_absorb m k v :
  is_Some (m !! k) → m ∪ {[k := v]} = m.
Proof.
  intros [x Hx]. apply map_eq. intros j. rewrite lookup_union.
  destruct (decide (k = j)) as [<-|Hne].
  - by rewrite Hx, lookup_singleton_eq.
  - rewrite lookup_singleton_ne by done. by destruct (m !! j).
Qed.

Lemma enhanceSchema_not_object schema t :
  is_object schema = false → enhanceSchemaWithDescriptions schema t = schema.
Proof.
  unfold enhanceSchemaWithDescriptions, is_object.
  by destruct (truthy schema), (typeof_object schema).
Qed.

Lemma enhanceSchema_object schema t :
  is_object schema = true →
  enhanceSchemaWithDescriptions schema t =
  JObj (<["properties" := resultProperties schema]>
          (own_props schema ∪
           {["description" :=
               nullish_coalesce (get_prop schema "description")
                                (JStr (t +:+ " parameters"))]})).
Proof.
  unfold enhanceSchemaWithDescriptions, is_object.
  by destruct (truthy schema), (typeof_object schema).
Qed.

Lemma own_props_falsy v : truthy v = false → own_props v = ∅.
Proof.
  destruct v as [| |b|n|s|l|m]; try done; simpl.
  destruct s; [done|discriminate].
Qed.

Lemma own_props_propertiesOf schema :
  own_props (propertiesOf schema) = own_props (get_prop schema "properties").
Proof.
  unfold propertiesOf. simpl. destruct (truthy _) eqn:Hp; [done|].
  symmetry. by apply own_props_falsy.
Qed.

Lemma truthy_propertiesOf schema : truthy (propertiesOf schema) = true.
Proof.
  unfold propertiesOf. simpl.
  by destruct (truthy (get_prop schema "properties")) eqn:Hp.
Qed.

Lemma lookup_resultProperties schema k :
  k ≠ "__proto__" →
  own_props (resultProperties schema) !! k =
  enhanceProperty k <$> own_props (get_prop schema "properties") !! k.
Proof.
  intros Hp. unfold resultProperties. rewrite <- own_props_propertiesOf.
  destruct (non_empty _) eqn:Hk; simpl.
  - by apply lookup_enhanceProperties_other.
  - apply js_keys_empty in Hk. by rewrite Hk, lookup_empty.
Qed.

Lemma resultProperties_keys schema k :
  is_Some (own_props (resultProperties schema) !! k) →
  is_Some (own_props (get_prop schema "properties") !! k).
Proof.
  unfold resultProperties. rewrite <- own_props_propertiesOf.
  destruct (non_empty _) eqn:Hk; simpl; [|done].
  rewrite lookup_enhanceProperties.
  destruct (String.eqb k "__proto__"); [by intros [? ?]|].
  by rewrite fmap_is_Some.
Qed.

Lemma truthy_resultProperties schema : truthy (resultProperties schema) = true.
Proof.
  unfold resultProperties. destruct (non_empty _); [done|].
  apply truthy_propertiesOf.
Qed.

(** Enhancing properties that were enhanced already changes nothing. *)
Lemma resultProperties_fixed schema :
  (if non_empty (js_keys (resultProperties schema))
   then JObj (enhanceProperties (resultProperties schema))
   else resultProperties schema) = resultProperties schema.
Proof.
  unfold resultProperties.
  destruct (non_empty (js_keys (propertiesOf schema))) eqn:Hk.
  - destruct (non_empty (js_keys (JObj _))); [|done].
    f_equal. apply map_eq. intros k.
    rewrite lookup_enhanceProperties. simpl.
    rewrite lookup_enhanceProperties.
    destruct (String.eqb k "__proto__"); [done|].
    destruct (own_props (propertiesOf schema) !! k); simpl; [|done].
    by rewrite enhanceProperty_idemp.
  - by rewrite Hk.
Qed.

Lemma resultProperties_stable schema (r : gmap string JsValue) :
  r !! "properties" = Some (resultProperties schema) →
  resultProperties (JObj r) = resultProperties schema.
Proof.
  intros Hr.
  assert (propertiesOf (JObj r) = resultProperties schema) as Hp.
  { unfold propertiesOf, get_prop. simpl. rewrite Hr. simpl.
    by rewrite truthy_resultProperties. }
  unfold resultProperties at 1. rewrite Hp. apply resultProperties_fixed.
Qed.

(** Schema enhancement is idempotent, whatever title the second pass uses. *)
Lemma enhanceSchema_idemp schema t t' :
  enhanceSchemaWithDescriptions (enhanceSchemaWithDescriptions schema t) t' =
  enhanceSchemaWithDescriptions schema t.
Proof.
  destruct (is_object schema) eqn:Hs.
  - rewrite (enhanceSchema_object schema t) by done.
    set (r := <["properties" := _]> _).
    assert (r !! "properties" = Some (resultProperties schema)) as Hp
      by apply lookup_insert_eq.
    assert (is_Some (r !! "description")) as [d Hd].
    { unfold r. rewrite lookup_insert_ne by done.
      apply lookup_union_is_Some. right. rewrite lookup_singleton_eq. eauto. }
    rewrite enhanceSchema_object by done. f_equal.
    rewrite (resultProperties_stable schema) by done. simpl.
    rewrite union_singleton_absorb by eauto.
    by apply insert_id.
  - by rewrite !(enhanceSchema_not_object schema) by done.
Qed.

End SchemaEnhancer.

(** What the code stores under [properties], read back from the result. *)
Lemma enhanceSchema_properties schema t :
  is_object schema = true →
  get_prop (enhanceSchemaWithDescriptions schema t) "properties" =
  resultProperties schema.
Proof.
  intros Hs. rewrite enhanceSchema_object by done.
  unfold get_prop. simpl. by rewrite lookup_insert_eq.
Qed.

Lemma enhanceSchema_lookup schema t k :
  is_object schema = true → k ≠ "properties" →
  own_props (enhanceSchemaWithDescriptions schema t) !! k =
  (own_props schema ∪
   {["description" :=
       nullish_coalesce (get_prop schema "description")
                        (JStr (t +:+ " parameters"))]}) !! k.
Proof.
  intros Hs Hk. rewrite enhanceSchema_object by done. simpl.
  by rewrite lookup_insert_ne.
Qed.

(** C7, as the code has it. For an object-valued schema and title [t], and
    for every property key other than [__proto__]: a property whose value is
    an object without a [description] receives
    ["Value for <key with underscores replaced by spaces>"] (its other fields
    are kept); a property that has a [description] is returned unchanged. The
    schema-level [description] is ["<t> parameters"] when the schema has none,
    and the existing one otherwise; a missing or non-object schema is returned
    as it is. The function is total: no input makes it fail. *)
Theorem enhanceSchema_descriptions (schema : JsValue) (t : string) :
  let result := enhanceSchemaWithDescriptions schema t in
  let properties := own_props (get_prop schema "properties") in
  let properties' := own_props (get_prop result "properties") in
  (is_object schema = true →
     (∀ key value,
        key ≠ "__proto__" →
        properties !! key = Some value →
        is_object value = true → has_prop "description" value = false →
        properties' !! key =
        Some (JObj (<["description" :=
                        JStr ("Value for " +:+ replace_underscores key)]>
                      (own_props value)))) ∧
     (∀ key value,
        key ≠ "__proto__" →
        properties !! key = Some value →
        has_prop "description" value = true →
        properties' !! key = Some value) ∧
     (own_props schema !! "description" = None →
        own_props result !! "description" = Some (JStr (t +:+ " parameters"))) ∧
     (∀ d, own_props schema !! "description" = Some d →
        own_props result !! "description" = Some d)) ∧
  (is_object schema = false → result = schema).
Proof.
  intros result properties properties'. split.
  - intros Hs. unfold properties', result.
    rewrite enhanceSchema_properties by done.
    repeat split.
    + intros key value Hp Hk Hv Hd. rewrite lookup_resultProperties by done.
      fold properties. rewrite Hk. simpl. f_equal.
      apply enhanceProperty_injectable. unfold injectable.
      fold (is_object value). by rewrite Hv, Hd.
    + intros key value Hp Hk Hd. rewrite lookup_resultProperties by done.
      fold properties. rewrite Hk. simpl. f_equal.
      apply enhanceProperty_not_injectable. unfold injectable.
      rewrite Hd. apply andb_false_r.
    + intros Hd. rewrite enhanceSchema_lookup by done.
      rewrite lookup_union_r by done. rewrite lookup_singleton_eq.
      unfold get_prop. by rewrite Hd.
    + intros d Hd. rewrite enhanceSchema_lookup by done.
      by rewrite (lookup_union_Some_l _ _ _ d).
  - apply enhanceSchema_not_object.
Qed.

(** A property given as a boolean schema has no description and receives
    none: the callback only adds one to a value that is an object. *)
Lemma boolean_property_without_description :
  let schema := JObj {["properties" := JObj {["foo" := JBool true]}]} in
  own_props (get_prop schema "properties") !! "foo" = Some (JBool true) ∧
  has_prop "description" (JBool true) = false ∧
  own_props (get_prop (enhanceSchemaWithDescriptions schema "T") "properties")
    !! "foo" = Some (JBool true).
Proof. by vm_compute. Qed.

Lemma enhanceProperty_fields key value :
  is_object value = true →
  ∃ fields,
    enhanceProperty key value = JObj fields ∧
    ∀ f, f ≠ "description" → fields !! f = own_props value !! f.
Proof.
  intros Hv. destruct (injectable value) eqn:Hi.
  - rewrite enhanceProperty_injectable by done. eexists. split; [done|].
    intros f Hf. by rewrite lookup_insert_ne.
  - rewrite enhanceProperty_not_injectable by done.
    unfold injectable in Hi. fold (is_object value) in Hi. rewrite Hv in Hi.
    destruct value; try discriminate. by eexists.
Qed.

(** C10, as the code has it. For an object-valued schema the result has no
    property key the input lacks, and it has every property key of the input
    other than [__proto__]; every schema-level field other than [description]
    and [properties] keeps its input value; the fields of the result are those
    of the input plus [description] and [properties], the latter being set to
    an empty object when the input has none (or a falsy one); and for every
    property key other than [__proto__], a property whose value is not an
    object is returned unchanged, and inside an object-valued property every
    field other than [description] keeps its value. *)
Theorem enhanceSchema_frame (schema : JsValue) (t : string) :
  is_object schema = true →
  let result := enhanceSchemaWithDescriptions schema t in
  let properties := own_props (get_prop schema "properties") in
  let properties' := own_props (get_prop result "properties") in
  dom properties' ⊆ dom properties ∧
  (∀ key, key ≠ "__proto__" → key ∈ dom properties → key ∈ dom properties') ∧
  (∀ k, k ≠ "description" → k ≠ "properties" →
        own_props result !! k = own_props schema !! k) ∧
  dom (own_props result) =
    dom (own_props schema) ∪ {["description"; "properties"]} ∧
  (truthy (get_prop schema "properties") = false →
     own_props result !! "properties" = Some (JObj ∅)) ∧
  (∀ key value,
     key ≠ "__proto__" →
     properties !! key = Some value → is_object value = false →
     properties' !! key = Some value) ∧
  (∀ key value,
     key ≠ "__proto__" →
     properties !! key = Some value → is_object value = true →
     ∃ fields,
       properties' !! key = Some (JObj fields) ∧
       ∀ f, f ≠ "description" → fields !! f = own_props value !! f).
Proof.
  intros Hs result properties properties'.
  assert (∀ k, k ≠ "__proto__" →
               properties' !! k = enhanceProperty k <$> properties !! k) as Hl.
  { intros k Hk. unfold properties', result.
    rewrite enhanceSchema_properties by done.
    by apply lookup_resultProperties. }
  assert (∀ k, is_Some (properties' !! k) → is_Some (properties !! k)) as Hsub.
  { intros k. unfold properties', result, properties.
    rewrite enhanceSchema_properties by done.
    apply resultProperties_keys. }
  split; [|split; [|split; [|split; [|split; [|split]]]]].
  - intros k. rewrite !elem_of_dom. apply Hsub.
  - intros k Hk. rewrite !elem_of_dom, Hl by done. by rewrite fmap_is_Some.
  - intros k Hd Hp. unfold result. rewrite enhanceSchema_lookup by done.
    rewrite lookup_union, lookup_singleton_ne by done.
    by destruct (own_props schema !! k).
  - unfold result. rewrite enhanceSchema_object by done. simpl.
    rewrite dom_insert_L, dom_union_L, dom_singleton_L.
    apply set_eq. intros k. rewrite !elem_of_union, !elem_of_singleton. tauto.
  - intros Hp. unfold result. rewrite enhanceSchema_object by done. simpl.
    rewrite lookup_insert_eq. unfold resultProperties, propertiesOf. simpl.
    by rewrite Hp.
  - intros key value Hp Hk Hv. rewrite Hl, Hk by done. simpl. f_equal.
    apply enhanceProperty_not_injectable. unfold injectable.
    fold (is_object value). by rewrite Hv.
  - intros key value Hp Hk Hv. rewrite Hl, Hk by done. simpl.
    destruct (enhanceProperty_fields key value Hv) as (fields & -> & Hf).
    eauto.
Qed.

(** The schema of [call_clickup_api] keeps its fields. *)
Lemma enhanceSchema_frame_call_clickup_api :
  is_object (inputSchema callClickUpApiTool) = true ∧
  dom (own_props
         (enhanceSchemaWithDescriptions (inputSchema callClickUpApiTool) "T")) =
  dom (own_props (inputSchema callClickUpApiTool)) ∪
    {["description"; "properties"]}.
Proof.
  split; [reflexivity|].
  apply (enhanceSchema_frame (inputSchema callClickUpApiTool) "T" eq_refl).
Defined.

(** A field other than a description is added: [properties], as an empty
    object, to a schema that has no such field. *)
Lemma enhanceSchema_adds_properties :
  own_props bareSchema !! "properties" = None ∧
  own_props bareSchema !! "description" = None ∧
  enhanceSchemaWithDescriptions bareSchema "T" =
  JObj (<["description" := JStr "T parameters"]>
          (<["type" := JStr "object"]> (<["properties" := JObj ∅]> ∅))).
Proof. by vm_compute. Qed.

(** ** The metadata enhancer *)

Lemma prefix_spec (p s : string) :
  String.prefix p s = true ↔ ∃ rest, s = p +:+ rest.
Proof.
  revert s. induction p as [|c p IH]; intros [|c' s]; simpl.
  - split; [by exists ""|done].
  - split; [by eexists|done].
  - split; [done|]. by intros [rest ?].
  - destruct (Ascii.ascii_dec c c') as [->|Hc].
    + rewrite IH. split; intros [rest Hr]; exists rest.
      * by rewrite Hr.
      * change (String c' s = String c' (p +:+ rest)) in Hr. congruence.
    + split; [done|]. intros [rest Hr].
      change (String c' s = String c (p +:+ rest)) in Hr. congruence.
Qed.

Lemma isReadOnlyName_spec (n : string) :
  isReadOnlyName n = true ↔
  ∃ p rest, p ∈ readOnlyPrefixes ∧ n = p +:+ rest.
Proof.
  unfold isReadOnlyName. rewrite existsb_exists. split.
  - intros (p & Hp%list_elem_of_In & Hpre%prefix_spec).
    destruct Hpre as [rest ->]. eauto.
  - intros (p & rest & Hp%list_elem_of_In & ->).
    exists p. split; [done|]. apply prefix_spec. eauto.
Qed.

Lemma lookup_hints_explicit (d : Tool) a' k v :
  annotations (enhanceToolMetadata d) = Some a' →
  from_option hints ∅ (annotations d) !! k = Some v →
  hints a' !! k = Some v.
Proof. intros [= <-] Hk. simpl. by apply lookup_union_Some_l. Qed.

Lemma lookup_hints_inferred (d : Tool) a' k :
  annotations (enhanceToolMetadata d) = Some a' →
  from_option hints ∅ (annotations d) !! k = None →
  hints a' !! k = inferredHints (name d) !! k.
Proof. intros [= <-] Hk. simpl. by apply lookup_union_r. Qed.

(** C5, as the code has it. A descriptor is inferred read-only iff its name
    starts with one of [get_], [list_], [find_], [resolve_],
    [call_clickup_api], [get_workspace_hierarchy] (all six are prefix tests);
    the annotations of the result hold every value the descriptor supplies,
    and for a hint it does not supply the default: [readOnlyHint] and
    [idempotentHint] the inference, [destructiveHint] its negation,
    [openWorldHint] whether the name is exactly [call_clickup_api]. *)
Theorem enhanceToolMetadata_annotations (d : Tool) :
  let explicit := from_option hints ∅ (annotations d) in
  let isReadOnly := isReadOnlyName (name d) in
  (isReadOnly = true ↔
     ∃ p rest,
       p ∈ ["get_"; "list_"; "find_"; "resolve_"; "call_clickup_api";
            "get_workspace_hierarchy"] ∧
       name d = p +:+ rest) ∧
  ∃ a',
    annotations (enhanceToolMetadata d) = Some a' ∧
    (∀ k v, explicit !! k = Some v → hints a' !! k = Some v) ∧
    (explicit !! "readOnlyHint" = None →
       hints a' !! "readOnlyHint" = Some (JBool isReadOnly)) ∧
    (explicit !! "destructiveHint" = None →
       hints a' !! "destructiveHint" = Some (JBool (negb isReadOnly))) ∧
    (explicit !! "idempotentHint" = None →
       hints a' !! "idempotentHint" = Some (JBool isReadOnly)) ∧
    (explicit !! "openWorldHint" = None →
       hints a' !! "openWorldHint" =
       Some (JBool (bool_decide (name d = "call_clickup_api")))).
Proof.
  intros explicit isReadOnly. split; [apply isReadOnlyName_spec|].
  eexists. split; [reflexivity|].
  split; [intros k v; by apply lookup_hints_explicit|].
  repeat split; intros Hk;
    rewrite (lookup_hints_inferred d _ _ eq_refl Hk); try done.
  unfold inferredHints. rewrite !lookup_insert_ne by done.
  rewrite lookup_insert_eq. do 2 f_equal.
  case_bool_decide as Hn.
  - by apply String.eqb_eq.
  - by apply String.eqb_neq.
Qed.

(** A name that continues [call_clickup_api]: read-only for the code, not for
    the wording with exact names. *)
Lemma readOnly_prefix_not_exact :
  let d := mkTool "call_clickup_api_v2" None JUndefined None ∅ in
  specReadOnly (name d) = false ∧
  isReadOnlyName (name d) = true ∧
  (annotations (enhanceToolMetadata d) ≫= λ a, hints a !! "readOnlyHint") =
  Some (JBool true).
Proof. by vm_compute. Qed.

(** C6. Enhancing an enhanced descriptor gives the same descriptor: the
    description, the title, the annotations and the schema (with its injected
    descriptions) are left as the first pass made them. *)
Theorem enhanceToolMetadata_idempotent (d : Tool) :
  enhanceToolMetadata (enhanceToolMetadata d) = enhanceToolMetadata d.
Proof.
  unfold enhanceToolMetadata. simpl. f_equal.
  - apply enhanceSchema_idemp.
  - do 2 f_equal. by rewrite <- (assoc_L (∪)), (idemp_L (∪)).
Qed.

(** The examples of the specification. *)
Example title_get_task_comments :
  formatTitleFromName "get_task_comments" = "Get Task Comments".
Proof. reflexivity. Qed.

Example title_call_clickup_api :
  formatTitleFromName "call_clickup_api" = "Call Clickup Api".
Proof. reflexivity. Qed.

Example readOnly_examples :
  isReadOnlyName "get_task" = true ∧ isReadOnlyName "create_task" = false ∧
  isReadOnlyName "call_clickup_api" = true.
Proof. by vm_compute. Qed.


(** ** The dispatcher *)

Section DispatcherProperties.

Variable World : Type.
Variable handlers : HandlerId → JsValue → World → Completion * World.

(** C3. A tool that is not enabled is refused with code -32601 before any
    handler is called: the state behind the handlers and the record of
    handler calls are untouched. The message names the allow-list when
    [enabledTools] is non-empty, and says "disabled" otherwise. *)
Theorem callToolHandler_blocked config n params st :
  isToolEnabled config n = false →
  ∃ st',
    callToolHandler handlers config n params st =
    (Rejected
       (ProtocolError (-32601)
          (if non_empty (enabledTools config)
           then "Tool '" +:+ n +:+ "' is not in the enabled tools list."
           else "Tool '" +:+ n +:+ "' is disabled.")),
     st') ∧
    world st' = world st ∧ invoked st' = invoked st.
Proof.
  intros Hn. unfold callToolHandler. rewrite Hn. simpl. eauto.
Qed.

(** C2, as the code has it. An enabled name without handler binding is
    refused with code -32601 and the message ["Method not found: <name>"];
    no handler is called. The text "Unknown tool: <name>" is the message of
    the internal error, which the [catch] block replaces. *)
Theorem callToolHandler_unknown config n params st :
  isToolEnabled config n = true → handlerFor n = None →
  ∃ st',
    callToolHandler handlers config n params st =
    (Rejected (ProtocolError (-32601) ("Method not found: " +:+ n)), st') ∧
    world st' = world st ∧ invoked st' = invoked st.
Proof.
  intros Hn Hh. unfold callToolHandler. rewrite Hn, Hh. simpl. eauto.
Qed.

(** X20. The [catch] block at work. When the handler of an enabled, registered
    tool throws an error object while it is called, that is, before it
    returns a promise, the [catch] block turns it into a protocol error by
    its name: [UnknownToolError] gives -32601 and ["Method not found: <n>"],
    [ValidationError] gives -32602 and ["Invalid params for tool <n>: <m>"],
    any other name gives -32000 and ["Error executing tool <n>: <m>"]. *)
Lemma callToolHandler_handler_throws config n params st h (err : JsError) w :
  isToolEnabled config n = true →
  handlerFor n = Some h →
  handlers h (handlerArgument h params) (world st) = (Throw err, w) →
  (err_name err = "UnknownToolError" →
     (callToolHandler handlers config n params st).1 =
     Rejected (ProtocolError (-32601) ("Method not found: " +:+ n))) ∧
  (err_name err = "ValidationError" →
     (callToolHandler handlers config n params st).1 =
     Rejected (ProtocolError (-32602)
                 ("Invalid params for tool " +:+ n +:+ ": " +:+ err_message err))) ∧
  (err_name err ≠ "UnknownToolError" → err_name err ≠ "ValidationError" →
     (callToolHandler handlers config n params st).1 =
     Rejected (ProtocolError (-32000)
                 ("Error executing tool " +:+ n +:+ ": " +:+ err_message err))).
Proof.
  intros Hn Hh Hc. unfold callToolHandler. rewrite Hn, Hh. simpl.
  rewrite Hc. simpl. unfold rewrapError. split; [|split].
  - by intros ->.
  - by intros ->.
  - intros H1%String.eqb_neq H2%String.eqb_neq. by rewrite H1, H2.
Qed.

(** A promise returned by the handler is not awaited inside [try]: when it
    rejects, the request is rejected with the handler's own error, which
    the [catch] block never sees. *)
Lemma callToolHandler_handler_rejects config n params st h err w :
  isToolEnabled config n = true →
  handlerFor n = Some h →
  handlers h (handlerArgument h params) (world st) =
    (ReturnPromise (Rejected err), w) →
  (callToolHandler handlers config n params st).1 = Rejected (Raised err).
Proof.
  intros Hn Hh Hc. unfold callToolHandler. rewrite Hn, Hh. simpl.
  by rewrite Hc.
Qed.

(** The handler's result is returned unchanged. *)
Lemma callToolHandler_success config n params st h v w :
  isToolEnabled config n = true →
  handlerFor n = Some h →
  (handlers h (handlerArgument h params) (world st) = (Return v, w) ∨
   handlers h (handlerArgument h params) (world st) =
     (ReturnPromise (Fulfilled v), w)) →
  (callToolHandler handlers config n params st).1 = Fulfilled v.
Proof.
  intros Hn Hh Hc. unfold callToolHandler. rewrite Hn, Hh. simpl.
  by destruct Hc as [-> | ->].
Qed.

End DispatcherProperties.

(** *** The dispatcher on concrete handlers *)

(** With [enabledTools = ["get_task"]], [create_task] is refused and no
    handler runs. *)
Lemma callToolHandler_blocked_create_task :
  isToolEnabled allowOnlyGetTask "create_task" = false ∧
  ∃ st',
    callToolHandler (constHandlers (Return JNull)) allowOnlyGetTask
                    "create_task" JNull idle =
    (Rejected (ProtocolError (-32601)
                 "Tool 'create_task' is not in the enabled tools list."), st') ∧
    world st' = 0%nat ∧ invoked st' = [].
Proof.
  split; [reflexivity|].
  exact (callToolHandler_blocked nat (constHandlers (Return JNull))
           allowOnlyGetTask "create_task" JNull idle eq_refl).
Defined.

(** [not_a_real_tool], with both lists empty, is refused with
    "Method not found: not_a_real_tool". *)
Lemma callToolHandler_unknown_not_a_real_tool :
  isToolEnabled openConfig "not_a_real_tool" = true ∧
  handlerFor "not_a_real_tool" = None ∧
  ∃ st',
    callToolHandler (constHandlers (Return JNull)) openConfig
                    "not_a_real_tool" JNull idle =
    (Rejected (ProtocolError (-32601) "Method not found: not_a_real_tool"), st') ∧
    world st' = 0%nat ∧ invoked st' = [].
Proof.
  split; [reflexivity|]. split; [reflexivity|].
  exact (callToolHandler_unknown nat (constHandlers (Return JNull))
           openConfig "not_a_real_tool" JNull idle eq_refl eq_refl).
Defined.

(** The message the client receives for [not_a_real_tool] does not contain
    "Unknown tool: not_a_real_tool". *)
Lemma unknown_tool_message_replaced :
  (callToolHandler (constHandlers (Return JNull)) openConfig
                   "not_a_real_tool" JNull idle).1 =
  Rejected (ProtocolError (-32601) "Method not found: not_a_real_tool") ∧
  str_includes "Unknown tool: not_a_real_tool"
               "Method not found: not_a_real_tool" = false.
Proof. by vm_compute. Qed.

(** [create_task] throwing a [ValidationError] with message "bad input" while
    it is called. *)
Lemma callToolHandler_validation_error_create_task :
  let err := mkError "ValidationError" "bad input" in
  isToolEnabled openConfig "create_task" = true ∧
  handlerFor "create_task" = Some handleCreateTask ∧
  (callToolHandler (constHandlers (Throw err)) openConfig
                   "create_task" JNull idle).1 =
  Rejected (ProtocolError (-32602)
              "Invalid params for tool create_task: bad input").
Proof.
  split; [reflexivity|]. split; [reflexivity|].
  destruct (callToolHandler_handler_throws nat
              (constHandlers (Throw (mkError "ValidationError" "bad input")))
              openConfig "create_task" JNull idle handleCreateTask
              (mkError "ValidationError" "bad input") 1%nat
              eq_refl eq_refl eq_refl) as (_ & Hvalidation & _).
  exact (Hvalidation eq_refl).
Defined.

(** The same condition raised by an [async] handler, that is, as the rejection
    of the promise it returns: the request is rejected with the condition
    itself, not with a protocol error. *)
Lemma callToolHandler_async_validation_error :
  let err := mkError "ValidationError" "bad input" in
  isToolEnabled openConfig "create_task" = true ∧
  handlerFor "create_task" = Some handleCreateTask ∧
  (callToolHandler (constHandlers (ReturnPromise (Rejected err))) openConfig
                   "create_task" JNull idle).1 = Rejected (Raised err).
Proof.
  split; [reflexivity|]. split; [reflexivity|].
  exact (callToolHandler_handler_rejects nat
           (constHandlers
              (ReturnPromise (Rejected (mkError "ValidationError" "bad input"))))
           openConfig "create_task" JNull idle handleCreateTask
           (mkError "ValidationError" "bad input") 1%nat
           eq_refl eq_refl eq_refl).
Defined.

(** A handler that raises a condition named [UnknownToolError]: the condition
    is neither a [ValidationError] nor reported with code -32000, and its
    message is dropped. *)
Lemma handler_condition_named_unknown_tool :
  let err := mkError "UnknownToolError" "boom" in
  isToolEnabled openConfig "create_task" = true ∧
  handlerFor "create_task" = Some handleCreateTask ∧
  String.eqb (err_name err) "ValidationError" = false ∧
  (callToolHandler (constHandlers (Throw err)) openConfig
                   "create_task" JNull idle).1 =
  Rejected (ProtocolError (-32601) "Method not found: create_task") ∧
  str_includes "boom" "Method not found: create_task" = false.
Proof. by vm_compute. Qed.

(** C4. The claim fails on the only handler the files show,
    [handleCallClickUpApi], called without arguments while both lists are
    empty. [callApi] raises "HTTP method is required" inside the promise of
    that [async] function; the dispatcher returns the promise without
    awaiting it, so the [catch] block never runs: the request is rejected
    with the error object of the service itself, not with code -32000 and
    "Error executing tool call_clickup_api: HTTP method is required", and
    the [catch] block logs nothing. This holds whatever the upper-casing,
    the request pipeline, the error classes and the other handlers are. *)
Theorem call_clickup_api_failure_not_rewrapped
        (toUpperCase : string → string)
        (makeRequest : ClientRequest.t → Outcome JsError ClientResponse.t)
        (errorObject : ApiFailure → JsError)
        (others : HandlerId → JsValue → list ClientRequest.t →
                  Completion * list ClientRequest.t)
        (st : DispatchState (list ClientRequest.t)) :
  let handlers :=
    withCallClickUpApi toUpperCase makeRequest None errorObject others in
  let failure :=
    ClickUpServiceError "HTTP method is required" INVALID_PARAMETER in
  let result := callToolHandler handlers openConfig "call_clickup_api" (JObj ∅) st in
  isToolEnabled openConfig "call_clickup_api" = true ∧
  handlerFor "call_clickup_api" = Some handleCallClickUpApi ∧
  result.1 = Rejected (Raised (errorObject failure)) ∧
  dlog result.2 =
    (dlog st ++ [mkLog "Server" LInfo "Received CallTool request for tool: call_clickup_api"])%list.
Proof. by destruct st. Qed.

(** ** The configuration guard and the cache prewarm *)

Section ServingProperties.

Variable World : Type.
Variable handlers : HandlerId → JsValue → World → Completion * World.
Variable config : Config.
Variables baseTools documentTools : list Tool.

Lemma prewarmClickUpCaches_frame ws ts st :
  isServerConfigured (prewarmClickUpCaches ws ts st).2 = isServerConfigured st ∧
  requestHandlers (prewarmClickUpCaches ws ts st).2 = requestHandlers st.
Proof.
  unfold prewarmClickUpCaches. destruct (prewarmPromise st); [done|].
  destruct ws; try done; destruct ts as [[]|]; done.
Qed.

Lemma configureServer_first ws ts st :
  isServerConfigured st = false →
  isServerConfigured (configureServer ws ts st) = true ∧
  requestHandlers (configureServer ws ts st) =
    (requestHandlers st ++ registeredByConfigure)%list.
Proof.
  intros Hf. unfold configureServer. rewrite Hf.
  destruct (prewarmClickUpCaches _ _ _) as [p st1] eqn:Hp. simpl.
  pose proof (prewarmClickUpCaches_frame ws ts
    (logTo "Server" LInfo "Registering server request handlers"
       {| isServerConfigured := true; requestHandlers := requestHandlers st;
          prewarmPromise := prewarmPromise st; reactions := reactions st;
          slog := slog st |})) as [H1 H2].
  rewrite Hp in H1, H2. simpl in H1, H2. rewrite H1, H2.
  split; [done|]. by rewrite <- !(assoc_L (++)).
Qed.

Lemma configureServer_again ws ts st :
  isServerConfigured st = true →
  configureServer ws ts st =
  logTo "Server" LDebug
        "Server already configured - skipping duplicate handler registration" st.
Proof. intros Hf. unfold configureServer. by rewrite Hf. Qed.

Lemma foldl_runReaction_frame rs st :
  isServerConfigured (foldl runReaction st rs) = isServerConfigured st ∧
  requestHandlers (foldl runReaction st rs) = requestHandlers st ∧
  prewarmPromise (foldl runReaction st rs) = prewarmPromise st.
Proof.
  revert st. induction rs as [|r rs IH]; intros st; simpl; [done|].
  destruct (IH (runReaction st r)) as (-> & -> & ->).
  by destruct r as [|[]].
Qed.

Lemma drain_frame st :
  isServerConfigured (drain st) = isServerConfigured st ∧
  requestHandlers (drain st) = requestHandlers st ∧
  prewarmPromise (drain st) = prewarmPromise st ∧
  reactions (drain st) = [].
Proof.
  unfold drain. simpl.
  by destruct (foldl_runReaction_frame (reactions st) st) as (-> & -> & ->).
Qed.

Lemma step_configured sys ev :
  isServerConfigured sys.1 = true →
  isServerConfigured (step handlers config baseTools documentTools sys ev).1 = true ∧
  requestHandlers (step handlers config baseTools documentTools sys ev).1 = requestHandlers sys.1.
Proof.
  intros Hf. destruct ev as [ws ts| |req]; unfold step; cbn [fst snd].
  - by rewrite configureServer_again.
  - by destruct (drain_frame sys.1) as (-> & -> & _).
  - done.
Qed.

Lemma run_configured events sys :
  isServerConfigured sys.1 = true →
  isServerConfigured (run handlers config baseTools documentTools events sys).1 = true ∧
  requestHandlers (run handlers config baseTools documentTools events sys).1 = requestHandlers sys.1.
Proof.
  unfold run. revert sys. induction events as [|ev events IH]; intros sys Hf.
  - done.
  - simpl. destruct (step_configured sys ev Hf) as [Hf' Hh].
    destruct (IH _ Hf') as [-> ->]. done.
Qed.

(** C8. The flag is false when the process starts. The first call of
    [configureServer] sets it and registers the five request handlers, each
    once. A call on a configured server changes nothing but the log: it
    returns the server as it is, registers no handler and starts no prewarm.
    Whatever happens afterwards (further calls, the job queue, requests) the
    flag stays true and the registered handlers stay the same. *)
Theorem configureServer_idempotent :
  isServerConfigured initialServer = false ∧
  requestHandlers initialServer = [] ∧
  (∀ ws ts st,
     isServerConfigured st = false →
     isServerConfigured (configureServer ws ts st) = true ∧
     requestHandlers (configureServer ws ts st) =
       (requestHandlers st ++ registeredByConfigure)%list) ∧
  NoDup registeredByConfigure ∧
  (∀ ws ts st,
     isServerConfigured st = true →
     let st' := configureServer ws ts st in
     isServerConfigured st' = true ∧
     requestHandlers st' = requestHandlers st ∧
     prewarmPromise st' = prewarmPromise st ∧
     reactions st' = reactions st ∧
     slog st' =
       (slog st ++
        [mkLog "Server" LDebug
           "Server already configured - skipping duplicate handler registration"])%list) ∧
  (∀ events sys,
     isServerConfigured sys.1 = true →
     isServerConfigured (run handlers config baseTools documentTools events sys).1 = true ∧
     requestHandlers (run handlers config baseTools documentTools events sys).1 = requestHandlers sys.1) ∧
  (∀ ws ts events st,
     requestHandlers (run handlers config baseTools documentTools (Configure ws ts :: events) (initialServer, st)).1 =
     registeredByConfigure).
Proof.
  split; [done|]. split; [done|].
  split; [apply configureServer_first|].
  split; [apply (bool_decide_unpack _); by vm_compute|].
  split; [by intros ws ts st Hf; simpl; rewrite configureServer_again|].
  split; [apply run_configured|].
  intros ws ts events st.
  change (run handlers config baseTools documentTools
              (Configure ws ts :: events) (initialServer, st))
    with (run handlers config baseTools documentTools events (configureServer ws ts initialServer, st)).
  destruct (configureServer_first ws ts initialServer eq_refl) as [Hf Hh].
  destruct (run_configured events (configureServer ws ts initialServer, st) Hf)
    as [_ Hr].
  rewrite Hr. cbn [fst]. by rewrite Hh.
Qed.

(** A request is answered from the registered handlers alone. *)
Lemma serve_ext srv1 srv2 req st :
  requestHandlers srv1 = requestHandlers srv2 →
  serve handlers config baseTools documentTools srv1 req st = serve handlers config baseTools documentTools srv2 req st.
Proof. intros Hh. unfold serve. by rewrite Hh. Qed.

Lemma slog_drain st :
  slog (drain st) = slog (foldl runReaction st (reactions st)).
Proof. reflexivity. Qed.

(** A call that throws: the first of the two, in call order. *)
Lemma prewarmThrows_true ws ts :
  prewarmThrows ws ts = true →
  ∃ e, ws = Throw e ∨ (∀ e', ws ≠ Throw e') ∧ ts = Some (Throw e).
Proof.
  destruct ws as [v|e|p].
  - destruct ts as [[v'|e'|p']|]; try done. intros _. exists e'. by right.
  - intros _. exists e. by left.
  - destruct ts as [[v'|e'|p']|]; try done. intros _. exists e'. by right.
Qed.

(** The first configuration of a server whose prewarm has not started, when
    a prewarm call throws [e]: the prewarm promise is rejected with [e] and
    its [.catch] callback waits in the job queue. *)
Lemma configureServer_prewarm_throws ws ts st e :
  isServerConfigured st = false → prewarmPromise st = None →
  (ws = Throw e ∨ (∀ e', ws ≠ Throw e') ∧ ts = Some (Throw e)) →
  prewarmPromise (configureServer ws ts st) = Some (Rejected e) ∧
  reactions (configureServer ws ts st) =
    (reactions st ++ [PrewarmCatch (Rejected e)])%list ∧
  slog (configureServer ws ts st) =
    (slog st ++
     [mkLog "Server" LInfo "Registering server request handlers";
      mkLog "SharedServices" LInfo "Starting background ClickUp cache prewarm";
      mkLog "Server" LInfo "Registering tool handlers"])%list.
Proof.
  intros Hf Hp Hthrow. unfold configureServer, prewarmClickUpCaches.
  rewrite Hf. simpl. rewrite Hp.
  destruct Hthrow as [->|[Hws ->]].
  - simpl. by rewrite <- !(assoc_L (++)).
  - destruct ws as [v|e'|p]; simpl; try by rewrite <- !(assoc_L (++)).
    by destruct (Hws e').
Qed.

(** The same when no prewarm call throws: the prewarm is suspended at its
    [await], and its continuation waits before the [.catch] callback. *)
Lemma configureServer_prewarm_settles ws ts st :
  isServerConfigured st = false → prewarmPromise st = None →
  prewarmThrows ws ts = false →
  prewarmPromise (configureServer ws ts st) = Some (Fulfilled tt) ∧
  reactions (configureServer ws ts st) =
    (reactions st ++ [ResumePrewarm; PrewarmCatch (Fulfilled tt)])%list ∧
  slog (configureServer ws ts st) =
    (slog st ++
     [mkLog "Server" LInfo "Registering server request handlers";
      mkLog "SharedServices" LInfo "Starting background ClickUp cache prewarm";
      mkLog "Server" LInfo "Registering tool handlers"])%list.
Proof.
  intros Hf Hp Hthrow. unfold configureServer, prewarmClickUpCaches.
  rewrite Hf. simpl. rewrite Hp.
  destruct ws as [v|e|p]; try discriminate;
    destruct ts as [[v'|e'|p']|]; try discriminate; simpl;
    by rewrite <- !(assoc_L (++)).
Qed.

(** C9, as the code has it. On the first configuration of a server whose
    prewarm has not started and whose job queue is empty, whatever the two
    prewarm calls do (return, throw, or return a promise that is fulfilled
    or rejected): [configureServer] completes with the flag set, the five
    handlers registered and the start of the prewarm logged, while the
    continuations of the prewarm still wait in the job queue (nothing
    awaited it). When a prewarm call throws [e], the prewarm promise is
    rejected with [e], its [.catch] callback is the one waiting
    continuation, and running it adds the warning "Cache prewarm failed" to
    the log. When no call throws, and so also when the promise of a call
    rejects, the prewarm promise is fulfilled and running the queue adds
    "Completed ClickUp cache prewarm" and no failure entry. Either way the
    queue ends empty with the flag and the handlers as they were, and every
    discovery or invocation request is answered as it would be after any
    other prewarm outcome. *)
Theorem prewarm_failure_absorbed ws ts st :
  isServerConfigured st = false →
  prewarmPromise st = None →
  reactions st = [] →
  let st' := configureServer ws ts st in
  isServerConfigured st' = true ∧
  requestHandlers st' = (requestHandlers st ++ registeredByConfigure)%list ∧
  slog st' =
    (slog st ++
     [mkLog "Server" LInfo "Registering server request handlers";
      mkLog "SharedServices" LInfo "Starting background ClickUp cache prewarm";
      mkLog "Server" LInfo "Registering tool handlers"])%list ∧
  (∀ e, ws = Throw e ∨ (∀ e', ws ≠ Throw e') ∧ ts = Some (Throw e) →
        prewarmPromise st' = Some (Rejected e) ∧
        reactions st' = [PrewarmCatch (Rejected e)] ∧
        slog (drain st') =
          (slog st' ++ [mkLog "Server" LWarn "Cache prewarm failed"])%list) ∧
  (prewarmThrows ws ts = false →
        prewarmPromise st' = Some (Fulfilled tt) ∧
        reactions st' = [ResumePrewarm; PrewarmCatch (Fulfilled tt)] ∧
        slog (drain st') =
          (slog st' ++
           [mkLog "SharedServices" LInfo "Completed ClickUp cache prewarm"])%list) ∧
  (isServerConfigured (drain st') = true ∧
   requestHandlers (drain st') = requestHandlers st' ∧
   reactions (drain st') = []) ∧
  (∀ ws' ts' req ds,
     serve handlers config baseTools documentTools st' req ds = serve handlers config baseTools documentTools (configureServer ws' ts' st) req ds ∧
     serve handlers config baseTools documentTools (drain st') req ds =
     serve handlers config baseTools documentTools (drain (configureServer ws' ts' st)) req ds).
Proof.
  intros Hf Hp Hq st'.
  destruct (configureServer_first ws ts st Hf) as [Hflag Hreg].
  destruct (drain_frame st') as (Hd1 & Hd2 & _ & Hd4).
  split; [done|]. split; [done|].
  split; [|split; [|split; [|split]]].
  - destruct (prewarmThrows ws ts) eqn:Ht.
    + destruct (prewarmThrows_true ws ts Ht) as [e He].
      by destruct (configureServer_prewarm_throws ws ts st e Hf Hp He)
        as (_ & _ & ?).
    + by destruct (configureServer_prewarm_settles ws ts st Hf Hp Ht)
        as (_ & _ & ?).
  - intros e He.
    destruct (configureServer_prewarm_throws ws ts st e Hf Hp He)
      as (Hpromise & Hqueue & _).
    rewrite Hq in Hqueue. split; [done|]. split; [done|].
    rewrite slog_drain. fold st' in Hqueue. by rewrite Hqueue.
  - intros Ht.
    destruct (configureServer_prewarm_settles ws ts st Hf Hp Ht)
      as (Hpromise & Hqueue & _).
    rewrite Hq in Hqueue. split; [done|]. split; [done|].
    rewrite slog_drain. fold st' in Hqueue. by rewrite Hqueue.
  - by rewrite Hd1, Hd2.
  - intros ws' ts' req ds.
    destruct (configureServer_first ws' ts' st Hf) as [_ Hreg'].
    destruct (drain_frame (configureServer ws' ts' st)) as (_ & Hd2' & _).
    unfold st' in *. split; apply serve_ext; congruence.
Qed.

End ServingProperties.

(** *** The guard and the prewarm on a concrete run *)

(** A workspace prewarm that throws on the first configuration of a process:
    the failure ends as the warning in the log. *)
Lemma prewarm_failure_absorbed_on_start :
  let st' := configureServer (Throw networkDown) None initialServer in
  isServerConfigured initialServer = false ∧
  prewarmPromise initialServer = None ∧
  reactions initialServer = [] ∧
  isServerConfigured st' = true ∧
  requestHandlers st' = registeredByConfigure ∧
  prewarmPromise st' = Some (Rejected (ErrorObject networkDown)) ∧
  reactions st' = [PrewarmCatch (Rejected (ErrorObject networkDown))] ∧
  slog (drain st') =
    (slog st' ++ [mkLog "Server" LWarn "Cache prewarm failed"])%list.
Proof.
  split; [reflexivity|]. split; [reflexivity|]. split; [reflexivity|].
  destruct (prewarm_failure_absorbed nat (constHandlers (Return JNull))
              openConfig [] [] (Throw networkDown) None initialServer
              eq_refl eq_refl eq_refl)
    as (Hflag & Hregistered & _ & Hthrows & _).
  destruct (Hthrows (ErrorObject networkDown) (or_introl eq_refl))
    as (Hpromise & Hqueue & Hlog).
  split; [exact Hflag|]. split; [exact Hregistered|].
  split; [exact Hpromise|]. split; [exact Hqueue | exact Hlog].
Defined.

(** A workspace prewarm whose promise rejects, on the first configuration of
    a process: [Promise.allSettled] settles it, the prewarm promise is
    fulfilled, and the log, all of it at level [info], ends with the
    completion of the prewarm: the failure is not logged. *)
Lemma rejected_prewarm_call_not_logged :
  let st' :=
    drain (configureServer (ReturnPromise (Rejected (ErrorObject networkDown)))
                           None initialServer) in
  delivered (ReturnPromise (Rejected (ErrorObject networkDown))) = None ∧
  prewarmPromise st' = Some (Fulfilled tt) ∧
  slog st' =
    [mkLog "SharedServices" LInfo "Creating shared ClickUp services singleton";
     mkLog "SharedServices" LInfo "Services initialization complete";
     mkLog "Server" LInfo "Registering server request handlers";
     mkLog "SharedServices" LInfo "Starting background ClickUp cache prewarm";
     mkLog "Server" LInfo "Registering tool handlers";
     mkLog "SharedServices" LInfo "Completed ClickUp cache prewarm"].
Proof. by vm_compute. Qed.

(** Two calls in a row register the handlers once. *)
Example configure_twice :
  requestHandlers
    (run (constHandlers (Return JNull)) openConfig [] []
         [Configure (Return JNull) None; Configure (Return JNull) None]
         (initialServer, idle)).1 = registeredByConfigure.
Proof. reflexivity. Qed.

(** * Part III: further properties of the code *)

(** ** The dispatch table *)

Lemma switchOn_elem_of n h cases :
  switchOn n cases = Some h → (n, h) ∈ cases.
Proof.
  induction cases as [|[label h'] rest IH]; simpl; [done|].
  destruct (String.eqb n label) eqn:E.
  - apply String.eqb_eq in E as ->. intros [= ->]. apply elem_of_cons. by left.
  - intros H. apply elem_of_cons. right. by apply IH.
Qed.

Lemma elem_of_switchOn n h cases :
  NoDup cases.*1 → (n, h) ∈ cases → switchOn n cases = Some h.
Proof.
  induction cases as [|[label h'] rest IH]; simpl.
  - by intros _ ?%elem_of_nil.
  - intros [Hl Hnd]%NoDup_cons [[= <- <-]|Hin]%elem_of_cons.
    + by rewrite String.eqb_refl.
    + destruct (String.eqb n label) eqn:E; [|by apply IH].
      apply String.eqb_eq in E as ->. exfalso. apply Hl.
      apply list_elem_of_fmap. by exists (label, h).
Qed.

Lemma toolHandlers_labels_NoDup : NoDup toolHandlers.*1.
Proof. apply (bool_decide_unpack _). by vm_compute. Qed.

Lemma toolHandlers_handlers_NoDup : NoDup toolHandlers.*2.
Proof. apply (bool_decide_unpack _). by vm_compute. Qed.

(** X2. The [switch] binds 48 names, no name twice and no handler twice: a name
    is dispatched to the handler of its own [case], and two names never
    reach the same handler. *)
Theorem handlerFor_one_to_one :
  length toolHandlers = 48%nat ∧
  (∀ n h, handlerFor n = Some h ↔ (n, h) ∈ toolHandlers) ∧
  (∀ a b h, handlerFor a = Some h → handlerFor b = Some h → a = b).
Proof.
  split; [reflexivity|].
  assert (∀ n h, handlerFor n = Some h ↔ (n, h) ∈ toolHandlers) as Htable.
  { intros n h. split; [apply switchOn_elem_of|].
    apply elem_of_switchOn, toolHandlers_labels_NoDup. }
  split; [done|].
  intros a b h [i Hi]%Htable%list_elem_of_lookup [j Hj]%Htable%list_elem_of_lookup.
  assert (i = j) as ->.
  { apply (NoDup_lookup _ _ _ h toolHandlers_handlers_NoDup);
      rewrite list_lookup_fmap; [by rewrite Hi | by rewrite Hj]. }
  congruence.
Qed.

(** ** The dispatcher *)

Section DispatcherFurther.

Variable World : Type.
Variable handlers : HandlerId → JsValue → World → Completion * World.

(** X3. An enabled, registered tool: its handler is called exactly once, with
    [params] (or nothing, for the two handlers without argument); the state
    it leaves is the state after the request; what it returns, directly or as
    a fulfilled promise, is the response, unchanged. *)
Theorem callToolHandler_calls_once config n params st h c w :
  isToolEnabled config n = true →
  handlerFor n = Some h →
  handlers h (handlerArgument h params) (world st) = (c, w) →
  let result := callToolHandler handlers config n params st in
  world result.2 = w ∧
  invoked result.2 = (invoked st ++ [(h, handlerArgument h params)])%list ∧
  (∀ v, c = Return v ∨ c = ReturnPromise (Fulfilled v) →
        result.1 = Fulfilled v).
Proof.
  intros Hn Hh Hc. unfold callToolHandler. rewrite Hn, Hh. simpl.
  rewrite Hc. destruct c as [v|e|[v|e]]; simpl;
    (split; [done|split; [done|]]); intros v' [[=]|[=]]; by subst.
Qed.

(** X4. Where every outcome of a request comes from. A response is what the
    handler returned. A protocol error has one of the codes -32601, -32602,
    -32000, and -32602 or -32000 only when the handler threw an error object
    while it was called: the protocol error is then the one the [catch] block
    makes of that object. A raised condition is the rejection of the
    handler's promise, or the [TypeError] the [catch] block itself raises on
    reading the name of a thrown [null] or [undefined]. *)
Theorem callToolHandler_outcomes config n params st :
  match (callToolHandler handlers config n params st).1 with
  | Fulfilled v =>
      ∃ h, isToolEnabled config n = true ∧ handlerFor n = Some h ∧
           ((handlers h (handlerArgument h params) (world st)).1 = Return v ∨
            (handlers h (handlerArgument h params) (world st)).1 =
              ReturnPromise (Fulfilled v))
  | Rejected (ProtocolError code text) =>
      (code = -32601 ∨ code = -32602 ∨ code = -32000)%Z ∧
      (code ≠ (-32601)%Z →
       ∃ h (err : JsError), handlerFor n = Some h ∧
         (handlers h (handlerArgument h params) (world st)).1 = Throw err ∧
         rewrapError n err = ProtocolError code text)
  | Rejected (Raised e) =>
      ∃ h, isToolEnabled config n = true ∧ handlerFor n = Some h ∧
           ((handlers h (handlerArgument h params) (world st)).1 =
              ReturnPromise (Rejected e) ∨
            ((handlers h (handlerArgument h params) (world st)).1 =
               Throw NullThrown ∧
             e = ErrorObject (nameOfNullish "null")) ∨
            ((handlers h (handlerArgument h params) (world st)).1 =
               Throw UndefinedThrown ∧
             e = ErrorObject (nameOfNullish "undefined")))
  end.
Proof.
  unfold callToolHandler.
  destruct (isToolEnabled config n) eqn:Hn; simpl; [|split; [by left|done]].
  destruct (handlerFor n) as [h|] eqn:Hh; simpl.
  - destruct (handlers h _ _) as [c w] eqn:Hc. simpl.
    destruct c as [v|[err| |]|[v|e]]; simpl.
    + exists h. rewrite Hc. auto.
    + unfold rewrapError.
      destruct (String.eqb (err_name err) "UnknownToolError") eqn:E1;
        [split; [by left|done]|].
      destruct (String.eqb (err_name err) "ValidationError") eqn:E2;
        (split; [by auto|]); intros _; exists h, err; rewrite Hc;
        (split; [done|split; [done|]]); unfold rewrapError;
        by rewrite E1, E2.
    + exists h. rewrite Hc. split; [done|]. split; [done|]. right. by left.
    + exists h. rewrite Hc. split; [done|]. split; [done|]. right. by right.
    + exists h. rewrite Hc. auto.
    + exists h. rewrite Hc. auto.
  - split; [by left|done].
Qed.

(** X5. A tool of the catalog that has a handler is listed by discovery exactly
    when a request for it reaches that handler. *)
Theorem listed_iff_dispatched config baseTools documentTools d h params st :
  d ∈ catalog config baseTools documentTools →
  handlerFor (name d) = Some h →
  enhanceToolMetadata d ∈ listToolsHandler config baseTools documentTools ↔
  invoked (callToolHandler handlers config (name d) params st).2 =
    (invoked st ++ [(h, handlerArgument h params)])%list.
Proof.
  intros Hd Hh.
  assert (enhanceToolMetadata d ∈ listToolsHandler config baseTools documentTools
          ↔ isToolEnabled config (name d) = true) as ->.
  { unfold listToolsHandler. fold (catalog config baseTools documentTools).
    rewrite list_elem_of_In, in_map_iff. split.
    - intros (d' & He & [_ Hen]%filter_In).
      apply (f_equal name) in He. simpl in He. by rewrite <- He.
    - intros Hen. exists d. split; [done|]. apply filter_In.
      by rewrite <- list_elem_of_In. }
  unfold callToolHandler. destruct (isToolEnabled config (name d)); simpl.
  - rewrite Hh. by destruct (handlers h _ _) as [[v|err|[v|e]] w].
  - split; [done|]. intros H%(f_equal length).
    rewrite length_app in H. simpl in H. lia.
Qed.

End DispatcherFurther.

(** ** Discovery *)

Lemma filter_map_names (P : string → bool) (l : list Tool) :
  map name (List.filter (λ tool, P (name tool)) l) = List.filter P (map name l).
Proof.
  induction l as [|d l IH]; simpl; [done|].
  destruct (P (name d)); simpl; by rewrite IH.
Qed.

(** X6. Discovery lists the enabled tools of the catalog under their own names
    and in catalog order; the document tools take part only when
    [documentSupport] is the string "true". *)
Theorem listToolsHandler_names config baseTools documentTools :
  map name (listToolsHandler config baseTools documentTools) =
    List.filter (isToolEnabled config)
                (map name (catalog config baseTools documentTools)) ∧
  (documentSupport config ≠ "true" →
     listToolsHandler config baseTools documentTools =
     listToolsHandler config baseTools []) ∧
  (documentSupport config = "true" →
     listToolsHandler config baseTools documentTools =
     (listToolsHandler config baseTools [] ++
      map enhanceToolMetadata
          (List.filter (λ tool, isToolEnabled config (name tool)) documentTools))%list).
Proof.
  split; [|split].
  - unfold listToolsHandler. fold (catalog config baseTools documentTools).
    rewrite map_map. simpl. by rewrite <- filter_map_names.
  - intros Hdoc%String.eqb_neq. unfold listToolsHandler, documentModule.
    rewrite Hdoc. by destruct (String.eqb _ _).
  - intros Hdoc. unfold listToolsHandler, documentModule.
    rewrite Hdoc. simpl. rewrite !List.filter_app, !map_app. simpl.
    destruct (isToolEnabled config "call_clickup_api"); simpl;
      by rewrite <- app_assoc.
Qed.

(** X7. Every tool that discovery lists is an enabled tool of the catalog,
    enhanced:
    it carries a description, a title, and an entry for each of the four
    hints. The entry is the descriptor's own when its annotations have that
    hint, whatever the value ([null] and [undefined] included), and a boolean
    otherwise. *)
Theorem listToolsHandler_complete config baseTools documentTools :
  Forall (λ tool,
            ∃ d a,
              d ∈ catalog config baseTools documentTools ∧
              isToolEnabled config (name d) = true ∧
              tool = enhanceToolMetadata d ∧
              is_Some (description tool) ∧
              annotations tool = Some a ∧ is_Some (title a) ∧
              ∀ k, k ∈ hintNames →
                   match from_option hints ∅ (annotations d) !! k with
                   | Some v => hints a !! k = Some v
                   | None => ∃ b, hints a !! k = Some (JBool b)
                   end)
         (listToolsHandler config baseTools documentTools).
Proof.
  unfold listToolsHandler. fold (catalog config baseTools documentTools).
  apply Forall_forall.
  intros tool (d & <- & [Hd Hen]%filter_In)%list_elem_of_In%in_map_iff.
  exists d. eexists. split; [by apply list_elem_of_In|].
  split; [done|]. split; [done|].
  simpl. split; [eauto|]. split; [done|]. simpl. split; [eauto|].
  intros k Hk.
  destruct (from_option hints ∅ (annotations d) !! k) as [v|] eqn:Hv.
  - by apply lookup_union_Some_l.
  - rewrite lookup_union_r by done.
    unfold hintNames in Hk. unfold inferredHints.
    repeat (apply elem_of_cons in Hk as [->|Hk];
            [rewrite ?lookup_insert_ne by done; rewrite lookup_insert_eq; eauto|]).
    by apply elem_of_nil in Hk.
Qed.

(** ** Titles and generated descriptions *)

Lemma all_chars_app P s1 s2 :
  all_chars P (s1 +:+ s2) = all_chars P s1 && all_chars P s2.
Proof.
  induction s1 as [|c s1 IH]; [done|].
  change (String c s1 +:+ s2) with (String c (s1 +:+ s2)). simpl.
  by rewrite IH, andb_assoc.
Qed.

Lemma to_upper_not_separator c :
  is_separator c = false → is_separator (to_upper c) = false.
Proof. destruct c as [[] [] [] [] [] [] [] []]; by vm_compute. Qed.

Lemma capitalize_not_separator seg :
  all_chars (λ c, negb (is_separator c)) seg = true →
  all_chars (λ c, negb (is_separator c)) (capitalize seg) = true.
Proof.
  destruct seg as [|c r]; [done|]. simpl.
  intros [Hc Hr]%andb_prop. apply negb_true_iff in Hc.
  by rewrite (to_upper_not_separator c Hc), Hr.
Qed.

Lemma split_name_not_separator s :
  Forall (λ seg, all_chars (λ c, negb (is_separator c)) seg = true)
         (split_name s).
Proof.
  induction s as [|c r IH]; simpl; [by repeat constructor|].
  fold (is_separator c). destruct (is_separator c) eqn:Hc.
  - by constructor.
  - destruct (split_name r) as [|seg segs];
      [repeat constructor; simpl; by rewrite Hc|].
    apply Forall_cons in IH as [Hseg Hsegs]. constructor; [|done].
    simpl. by rewrite Hc, Hseg.
Qed.

Lemma join_space_not_separator segs :
  Forall (λ seg, all_chars (λ c, negb (is_separator c)) seg = true) segs →
  all_chars (λ c, negb (is_separator c)) (join_space segs) = true.
Proof.
  induction 1 as [|seg segs Hseg Hsegs IH]; [done|].
  destruct segs as [|seg' segs]; [done|].
  change (join_space (seg :: seg' :: segs))
    with (seg +:+ " " +:+ join_space (seg' :: segs)).
  by rewrite !all_chars_app, Hseg, IH.
Qed.

Lemma split_name_all_empty s :
  Forall (λ seg, seg = "") (split_name s) ↔ all_chars is_separator s = true.
Proof.
  induction s as [|c r IH]; simpl.
  - split; [done|]. by repeat constructor.
  - fold (is_separator c). destruct (is_separator c) eqn:Hc; simpl.
    + rewrite Forall_cons. by rewrite IH; intuition.
    + split; [|done]. destruct (split_name r); by inversion 1.
Qed.

Lemma join_space_empty segs :
  Forall (λ seg, seg ≠ "") segs → join_space segs = "" → segs = [].
Proof.
  destruct 1 as [|seg segs Hseg Hsegs]; [done|].
  destruct segs as [|seg' segs]; simpl; [done|].
  by destruct seg.
Qed.

(** X8. A derived title contains neither [_] nor [-], and it is empty exactly
    for a name made of separators only (the empty name included). *)
Theorem formatTitleFromName_separators (n : string) :
  all_chars (λ c, negb (is_separator c)) (formatTitleFromName n) = true ∧
  (formatTitleFromName n = "" ↔ all_chars is_separator n = true).
Proof.
  unfold formatTitleFromName. split.
  - apply join_space_not_separator. apply Forall_forall.
    intros seg (seg0 & <- & [Hin _]%filter_In)%list_elem_of_In%in_map_iff.
    apply capitalize_not_separator.
    pose proof (split_name_not_separator n) as Hall.
    rewrite Forall_forall in Hall. by apply Hall, list_elem_of_In.
  - rewrite <- split_name_all_empty. split.
    + intros Hj. apply join_space_empty in Hj.
      * apply Forall_forall. intros seg Hin%list_elem_of_In.
        destruct (String.eqb seg "") eqn:E; [by apply String.eqb_eq|].
        exfalso. apply map_eq_nil in Hj.
        assert (In seg (List.filter (λ seg, negb (String.eqb seg ""))
                                    (split_name n))) as Hf
          by (apply filter_In; by rewrite E).
        by rewrite Hj in Hf.
      * apply Forall_forall.
        intros seg (seg0 & <- & [_ Hne]%filter_In)%list_elem_of_In%in_map_iff.
        destruct seg0; [done|]. done.
    + intros Hall.
      assert (List.filter (λ seg, negb (String.eqb seg "")) (split_name n) = [])
        as ->; [|done].
      induction Hall as [|seg segs -> _ IH]; [done|]. by simpl.
Qed.


(** ** The API passthrough *)

Lemma relative_not_absolute (url : string) :
  String.prefix "/" url = true → isAbsoluteUrl url = false.
Proof.
  intros [rest ->]%prefix_spec. reflexivity.
Qed.

Lemma slash_prefix (path : string) : String.prefix "/" ("/" +:+ path) = true.
Proof. apply prefix_spec. by exists path. Qed.

Section CustomRequestServiceProperties.

Variable toUpperCase : string → string.
Variable makeRequest : ClientRequest.t → Outcome JsError ClientResponse.t.

Lemma callApi_at_most_one_request (options : RawApiRequestOptions.t) :
  (length (callApi toUpperCase makeRequest options).2 ≤ 1)%nat.
Proof.
  unfold callApi. cbv zeta.
  destruct (RawApiRequestOptions.method options) as [| |b|z|m|l|o];
    try apply Nat.le_0_l.
  destruct (String.eqb (toUpperCase m) ""); [apply Nat.le_0_l|].
  destruct (negb (includes (toUpperCase m) supportedMethods)); [apply Nat.le_0_l|].
  destruct (RawApiRequestOptions.path options) as [| |b|z|p|l|o];
    try apply Nat.le_0_l.
  destruct (String.eqb p ""); [apply Nat.le_0_l|].
  destruct (isAbsoluteUrl p); [apply Nat.le_0_l|].
  destruct (makeRequest _); apply Nat.le_refl.
Qed.

(** X10. [callApi] hands at most one request to the request pipeline, and only a
    well-formed one: its method is one of GET, POST, PUT, PATCH, DELETE, its
    url starts with [/] (so it is never an absolute URL), and query, body and
    headers are those of the options. *)
Theorem callApi_requests_well_formed (options : RawApiRequestOptions.t) :
  (length (callApi toUpperCase makeRequest options).2 ≤ 1)%nat ∧
  Forall (λ request,
            ClientRequest.method request ∈ supportedMethods ∧
            String.prefix "/" (ClientRequest.url request) = true ∧
            isAbsoluteUrl (ClientRequest.url request) = false ∧
            ClientRequest.params request = RawApiRequestOptions.query options ∧
            ClientRequest.data request = RawApiRequestOptions.body options ∧
            ClientRequest.headers request = RawApiRequestOptions.headers options)
         (callApi toUpperCase makeRequest options).2.
Proof.
  unfold callApi. cbv zeta.
  destruct (RawApiRequestOptions.method options) as [| |b|z|m|l|o];
    try (split; [apply Nat.le_0_l|by constructor]).
  destruct (String.eqb (toUpperCase m) "");
    [split; [apply Nat.le_0_l|by constructor]|].
  destruct (includes (toUpperCase m) supportedMethods) eqn:Hm; cbn [negb];
    [|split; [apply Nat.le_0_l|by constructor]].
  destruct (RawApiRequestOptions.path options) as [| |b|z|p|l|o];
    try (split; [apply Nat.le_0_l|by constructor]).
  destruct (String.eqb p ""); [split; [apply Nat.le_0_l|by constructor]|].
  destruct (isAbsoluteUrl p) eqn:Habs;
    [split; [apply Nat.le_0_l|by constructor]|].
  assert (String.prefix "/" (if String.prefix "/" p then p else "/" +:+ p) = true)
    as Hrel.
  { destruct (String.prefix "/" p) eqn:Hp; [done|apply slash_prefix]. }
  destruct (makeRequest _); cbn [snd length]; (split; [apply Nat.le_refl|]);
    (constructor; [|constructor]);
    cbn [ClientRequest.method ClientRequest.url ClientRequest.params
         ClientRequest.data ClientRequest.headers];
    (split; [by apply includes_elem_of|]); (split; [done|]);
    (split; [by apply relative_not_absolute|done]).
Qed.

(** X11. How [callApi] settles. A response echoes the method and url of the one
    request issued, with status, data and headers of the client's response.
    A failure of the request pipeline is passed on as it is. Every other
    failure happens before any request is issued, and it is either a
    validation failure, a [ClickUpServiceError] with code [INVALID_PARAMETER]
    and one of the four messages of [callApi], or, for a method that is
    neither a string nor [null] nor [undefined], the [TypeError] of calling
    [toUpperCase] on it. *)
Theorem callApi_outcome (options : RawApiRequestOptions.t) :
  match callApi toUpperCase makeRequest options with
  | (Fulfilled response, issued) =>
      ∃ request answer,
        issued = [request] ∧ makeRequest request = Fulfilled answer ∧
        RawApiResponse.method response = ClientRequest.method request ∧
        RawApiResponse.path response = ClientRequest.url request ∧
        RawApiResponse.status response = ClientResponse.status answer ∧
        RawApiResponse.data response = ClientResponse.data answer ∧
        RawApiResponse.headers response = ClientResponse.headers answer
  | (Rejected (External e), issued) =>
      ∃ request, issued = [request] ∧ makeRequest request = Rejected e
  | (Rejected (ClickUpServiceError text code), issued) =>
      issued = [] ∧ code = INVALID_PARAMETER ∧
      (text = "HTTP method is required" ∨
       (∃ m, RawApiRequestOptions.method options = JStr m ∧
             text = "Unsupported HTTP method: " +:+ m +:+
                    ". Use GET, POST, PUT, PATCH, or DELETE.") ∨
       text = "API path is required" ∨
       text = "Provide ClickUp API paths relative to the API root (e.g., /team/{teamId}/goal)")
  | (Rejected MethodNotAString, issued) =>
      issued = [] ∧
      nullish (RawApiRequestOptions.method options) = false ∧
      ∀ m, RawApiRequestOptions.method options ≠ JStr m
  end.
Proof.
  unfold callApi. cbv zeta.
  destruct (RawApiRequestOptions.method options) as [| |b|z|m|l|o];
    try by auto.
  destruct (String.eqb (toUpperCase m) ""); [by auto|].
  destruct (negb (includes (toUpperCase m) supportedMethods)).
  { split; [done|]. split; [done|]. right. left. by exists m. }
  destruct (RawApiRequestOptions.path options) as [| |b|z|p|l|o];
    try by auto 6.
  destruct (String.eqb p ""); [by auto 6|].
  destruct (isAbsoluteUrl p); [by auto 6|].
  destruct (makeRequest _) as [answer|e] eqn:Hsend; simpl.
  - eexists _, answer. by rewrite Hsend.
  - eexists. by rewrite Hsend.
Qed.

(** X12. A relative path may be given with or without its leading [/]: both
    spellings issue the same request and settle alike. *)
Theorem callApi_leading_slash m p q b hd :
  p ≠ "" → String.prefix "/" p = false → isAbsoluteUrl p = false →
  callApi toUpperCase makeRequest (RawApiRequestOptions.mk m (JStr p) q b hd) =
  callApi toUpperCase makeRequest
          (RawApiRequestOptions.mk m (JStr ("/" +:+ p)) q b hd).
Proof.
  intros Hne%String.eqb_neq Hp Habs. unfold callApi. cbv zeta.
  cbn [RawApiRequestOptions.method RawApiRequestOptions.path
       RawApiRequestOptions.query RawApiRequestOptions.body
       RawApiRequestOptions.headers].
  destruct m as [| |b0|z|m|l|o]; try done.
  destruct (String.eqb (toUpperCase m) ""); [done|].
  destruct (negb (includes (toUpperCase m) supportedMethods)); [done|].
  rewrite Hne, Hp, Habs.
  assert (String.eqb ("/" +:+ p) "" = false) as -> by done.
  rewrite (relative_not_absolute ("/" +:+ p)) by apply slash_prefix.
  by rewrite slash_prefix.
Qed.

(** X13. Arguments that name no method (no arguments at all, a falsy value, an
    object without [method] or with a null one): the handler rejects with
    "HTTP method is required" and issues no request. *)
Theorem handleCallClickUpApi_without_method (params : JsValue) :
  truthy params = false ∨ nullish (get_prop params "method") = true →
  handleCallClickUpApiImpl toUpperCase makeRequest None params =
  (Rejected (ClickUpServiceError "HTTP method is required" INVALID_PARAMETER), []).
Proof.
  intros Hp. unfold handleCallClickUpApiImpl.
  assert (nullish (get_prop (if truthy params then params else JObj ∅) "method")
          = true) as Hm.
  { destruct Hp as [-> | Hp]; [done|]. by destruct (truthy params). }
  unfold callApi. simpl.
  by destruct (get_prop (if truthy params then params else JObj ∅) "method").
Qed.

(** X14. The [call_clickup_api] tool behind the dispatcher. The handler is an
    [async function], so a request for it ends in the handler's response (an
    object with the fields status, path, method, headers, data) or in the
    handler's own error: the dispatcher never turns its failure into a
    protocol error. At most one request is issued. *)
Theorem call_clickup_api_dispatch sponsor errorObject others config params st :
  isToolEnabled config "call_clickup_api" = true →
  let result :=
    callToolHandler
      (withCallClickUpApi toUpperCase makeRequest sponsor errorObject others)
      config "call_clickup_api" params st in
  match result.1 with
  | Fulfilled v =>
      dom (own_props v) = {["status"; "path"; "method"; "headers"; "data"]}
  | Rejected (Raised e) => ∃ failure, e = errorObject failure
  | Rejected (ProtocolError _ _) => False
  end ∧
  ∃ new, world result.2 = (world st ++ new)%list ∧ (length new ≤ 1)%nat ∧
         invoked result.2 = (invoked st ++ [(handleCallClickUpApi, params)])%list.
Proof.
  intros Hn. unfold callToolHandler. rewrite Hn. simpl.
  unfold handleCallClickUpApiImpl.
  destruct sponsor as [e|]; simpl.
  { split; [by eexists|]. exists []. split; [done|].
    split; [apply Nat.le_0_l|done]. }
  pose proof (callApi_at_most_one_request
    {| RawApiRequestOptions.method :=
         get_prop (if truthy params then params else JObj ∅) "method";
       RawApiRequestOptions.path :=
         get_prop (if truthy params then params else JObj ∅) "path";
       RawApiRequestOptions.query :=
         get_prop (if truthy params then params else JObj ∅) "query";
       RawApiRequestOptions.body :=
         get_prop (if truthy params then params else JObj ∅) "body";
       RawApiRequestOptions.headers :=
         get_prop (if truthy params then params else JObj ∅) "headers" |})
    as Hlen.
  destruct (callApi _ _ _) as [[response|failure] issued]; simpl in *.
  - split; [|by exists issued]. rewrite !dom_insert_L, dom_empty_L.
    apply set_eq. intros k. rewrite !elem_of_union, !elem_of_singleton.
    rewrite elem_of_empty. tauto.
  - split; [by eexists|by exists issued].
Qed.

End CustomRequestServiceProperties.

(** ** The task cache prewarm *)

Lemma tasksOf_None response :
  tasksOf response = None ↔ is_object response = false.
Proof.
  destruct response; unfold is_object; simpl; rewrite ?andb_false_r;
    split; done.
Qed.

(** X15. When [getWorkspaceTasks] throws, rejects, or delivers something that is
    not an object, the task cache is left as it was and the failure is only
    logged. *)
Theorem prewarmCaches_failure_keeps_cache getWorkspaceTasks now cache :
  match delivered getWorkspaceTasks with
  | None => True
  | Some response => is_object response = false
  end →
  prewarmCaches getWorkspaceTasks now cache = (cache, ["starting"; "failed"]).
Proof.
  unfold prewarmCaches. destruct (delivered getWorkspaceTasks) as [r|]; [|done].
  intros Hr%tasksOf_None. simpl. by rewrite Hr.
Qed.

(** X16. When [getWorkspaceTasks] delivers an object, the cache holds its [tasks]
    (an empty array when it has none), the time of the fetch, and the TTL it
    had (60000 for a new cache). The cache is written before the number of
    tasks is read for the log: a null or undefined [tasks] is cached too, and
    only then the prewarm is logged as failed. *)
Theorem prewarmCaches_success_fills_cache getWorkspaceTasks now cache response :
  delivered getWorkspaceTasks = Some response →
  is_object response = true →
  let tasks :=
    if has_prop "tasks" response then get_prop response "tasks" else JArr [] in
  (prewarmCaches getWorkspaceTasks now cache).1 =
    Some {| TaskCache.tasks := tasks; TaskCache.lastFetch := now;
            TaskCache.cacheTTL := from_option TaskCache.cacheTTL 60000%Z cache |} ∧
  (prewarmCaches getWorkspaceTasks now cache).2 =
    ["starting"; if nullish tasks then "failed" else "completed"].
Proof.
  intros Hd Hr. unfold prewarmCaches. rewrite Hd. simpl.
  unfold is_object in Hr.
  destruct response as [| |b|z|s|l|m]; simpl in Hr;
    rewrite ?andb_false_r in Hr; try done; simpl.
  - by destruct cache.
  - unfold get_prop, has_prop. cbn [own_props].
    destruct (m !! "tasks") as [t|] eqn:Ht; simpl.
    + destruct cache; by destruct (nullish t).
    + by destruct cache.
Qed.

(** ** The shared prewarm *)

(** X17. The prewarm runs once per process: a second call of
    [prewarmClickUpCaches] returns the promise of the first and changes
    nothing, whatever the services would do now. *)
Theorem prewarmClickUpCaches_once ws ts ws' ts' st :
  prewarmClickUpCaches ws' ts' (prewarmClickUpCaches ws ts st).2 =
  ((prewarmClickUpCaches ws ts st).1, (prewarmClickUpCaches ws ts st).2).
Proof.
  unfold prewarmClickUpCaches at 2 3 4.
  destruct (prewarmPromise st) as [p|] eqn:Hp.
  - unfold prewarmClickUpCaches. simpl. by rewrite Hp.
  - destruct ws as [v|e|p]; try done; destruct ts as [[v'|e'|p']|]; done.
Qed.

(** X18. The log of a first configuration (prewarm not started, job queue
    empty), once the job queue has run: the entries logged before it,
    followed by four entries, of which the last is the warning "Cache prewarm
    failed" exactly when one of the two prewarm calls throws while it is
    called, and "Completed ClickUp cache prewarm" otherwise (rejected
    promises of the calls included). *)
Theorem configureServer_prewarm_log ws ts st :
  isServerConfigured st = false →
  prewarmPromise st = None →
  reactions st = [] →
  slog (drain (configureServer ws ts st)) =
  (slog st ++
   [mkLog "Server" LInfo "Registering server request handlers";
    mkLog "SharedServices" LInfo "Starting background ClickUp cache prewarm";
    mkLog "Server" LInfo "Registering tool handlers";
    if prewarmThrows ws ts
    then mkLog "Server" LWarn "Cache prewarm failed"
    else mkLog "SharedServices" LInfo "Completed ClickUp cache prewarm"])%list.
Proof.
  intros Hf Hp Hq. rewrite slog_drain.
  destruct (prewarmThrows ws ts) eqn:Ht.
  - destruct (prewarmThrows_true ws ts Ht) as [e He].
    destruct (configureServer_prewarm_throws ws ts st e Hf Hp He)
      as (_ & Hqueue & Hlog).
    rewrite Hqueue, Hq. simpl. rewrite Hlog. by rewrite <- (assoc_L (++)).
  - destruct (configureServer_prewarm_settles ws ts st Hf Hp Ht)
      as (_ & Hqueue & Hlog).
    rewrite Hqueue, Hq. simpl. rewrite Hlog. by rewrite <- (assoc_L (++)).
Qed.

(** ** Request coverage *)

Section ServingFurther.

Variable World : Type.
Variable handlers : HandlerId → JsValue → World → Completion * World.
Variable config : Config.
Variables baseTools documentTools : list Tool.

(** X19. Before [configureServer] no request has a handler; after it every
    request has one. Resources and prompts are fixed stubs: the lists are
    empty and a prompt is never found, whatever the configuration. *)
Theorem serve_coverage ws ts req st :
  serve handlers config baseTools documentTools initialServer req st =
    (NoHandler, st) ∧
  let configured := configureServer ws ts initialServer in
  let answer :=
    (serve handlers config baseTools documentTools configured req st).1 in
  match req with
  | ListTools =>
      answer = ToolList (listToolsHandler config baseTools documentTools)
  | ListResources =>
      answer = Settled (Fulfilled (JObj {["resources" := JArr []]}))
  | CallTool n params =>
      answer = Settled (callToolHandler handlers config n params st).1
  | ListPrompts =>
      answer = Settled (Fulfilled (JObj {["prompts" := JArr []]}))
  | GetPrompt =>
      answer = Settled (Rejected (Raised (mkError "Error" "Prompt not found")))
  end.
Proof.
  split; [done|]. intros configured answer. unfold answer, serve.
  assert (requestHandlers configured = registeredByConfigure) as ->.
  { unfold configured.
    by destruct (configureServer_first ws ts initialServer eq_refl) as [_ ->]. }
  destruct req as [| |n params| |]; try done.
  rewrite bool_decide_eq_true_2 by (by vm_compute; set_solver).
  by destruct (callToolHandler _ _ _ _ _).
Qed.

End ServingFurther.

(** ** The further properties on concrete inputs *)

(** [get_task] with a handler that returns "ok". *)
Lemma callToolHandler_calls_once_get_task :
  let result :=
    callToolHandler (constHandlers (Return (JStr "ok"))) openConfig
                    "get_task" JNull idle in
  isToolEnabled openConfig "get_task" = true ∧
  handlerFor "get_task" = Some handleGetTask ∧
  world result.2 = 1%nat ∧
  invoked result.2 = [(handleGetTask, JNull)] ∧
  result.1 = Fulfilled (JStr "ok").
Proof.
  split; [reflexivity|]. split; [reflexivity|].
  destruct (callToolHandler_calls_once nat (constHandlers (Return (JStr "ok")))
              openConfig "get_task" JNull idle handleGetTask
              (Return (JStr "ok")) 1%nat eq_refl eq_refl eq_refl)
    as (Hworld & Hinvoked & Hresult).
  split; [exact Hworld|]. split; [exact Hinvoked|].
  exact (Hresult (JStr "ok") (or_introl eq_refl)).
Defined.

(** [call_clickup_api] in a catalog without further tools. *)
Lemma listed_iff_dispatched_call_clickup_api :
  callClickUpApiTool ∈ catalog openConfig [] [] ∧
  handlerFor "call_clickup_api" = Some handleCallClickUpApi ∧
  (enhanceToolMetadata callClickUpApiTool ∈ listToolsHandler openConfig [] [] ↔
   invoked (callToolHandler (constHandlers (Return JNull)) openConfig
                            "call_clickup_api" JNull idle).2 =
   [(handleCallClickUpApi, JNull)]).
Proof.
  split; [apply list_elem_of_here|]. split; [reflexivity|].
  exact (listed_iff_dispatched nat (constHandlers (Return JNull)) openConfig
           [] [] callClickUpApiTool handleCallClickUpApi JNull idle
           (list_elem_of_here _ _) eq_refl).
Defined.

(** [team/1] and [/team/1]. *)
Lemma callApi_leading_slash_team :
  "team/1" ≠ "" ∧ String.prefix "/" "team/1" = false ∧
  isAbsoluteUrl "team/1" = false ∧
  callApi upper okRequest
          (RawApiRequestOptions.mk (JStr "get") (JStr "team/1") JNull JNull JNull) =
  callApi upper okRequest
          (RawApiRequestOptions.mk (JStr "get") (JStr "/team/1") JNull JNull JNull).
Proof.
  assert ("team/1" ≠ "") as Hne by discriminate.
  split; [exact Hne|]. split; [reflexivity|]. split; [reflexivity|].
  exact (callApi_leading_slash upper okRequest (JStr "get") "team/1"
           JNull JNull JNull Hne eq_refl eq_refl).
Defined.

(** A request without arguments. *)
Lemma handleCallClickUpApi_without_arguments :
  truthy JUndefined = false ∧
  handleCallClickUpApiImpl upper okRequest None JUndefined =
  (Rejected (ClickUpServiceError "HTTP method is required" INVALID_PARAMETER), []).
Proof.
  split; [reflexivity|].
  exact (handleCallClickUpApi_without_method upper okRequest JUndefined
           (or_introl eq_refl)).
Defined.

(** [call_clickup_api] without arguments, through the dispatcher. *)
Lemma call_clickup_api_dispatch_without_arguments :
  let result :=
    callToolHandler (withCallClickUpApi upper okRequest None plainError nullHandlers)
                    openConfig "call_clickup_api" JUndefined
                    (mkDispatch [] [] []) in
  isToolEnabled openConfig "call_clickup_api" = true ∧
  ∃ new, world result.2 = ([] ++ new)%list ∧ (length new ≤ 1)%nat ∧
         invoked result.2 = ([] ++ [(handleCallClickUpApi, JUndefined)])%list.
Proof.
  split; [reflexivity|].
  exact (proj2 (call_clickup_api_dispatch upper okRequest None plainError
                  nullHandlers openConfig JUndefined (mkDispatch [] [] [])
                  eq_refl)).
Defined.

(** A fetch that throws, on a process without task cache. *)
Lemma prewarmCaches_failure_network_down :
  delivered (Throw networkDown) = None ∧
  prewarmCaches (Throw networkDown) 1700000000000 None =
  (None, ["starting"; "failed"]).
Proof.
  split; [reflexivity|].
  exact (prewarmCaches_failure_keeps_cache (Throw networkDown) 1700000000000
           None I).
Defined.

(** A fetch that delivers one task, on a process without task cache. *)
Lemma prewarmCaches_success_one_task :
  let response := JObj {["tasks" := JArr [JStr "task"]]} in
  delivered (ReturnPromise (Fulfilled response)) = Some response ∧
  is_object response = true ∧
  (prewarmCaches (ReturnPromise (Fulfilled response)) 1700000000000 None).1 =
  Some {| TaskCache.tasks := JArr [JStr "task"];
          TaskCache.lastFetch := 1700000000000;
          TaskCache.cacheTTL := 60000 |}.
Proof.
  split; [reflexivity|]. split; [reflexivity|].
  exact (proj1 (prewarmCaches_success_fills_cache
                  (ReturnPromise (Fulfilled (JObj {["tasks" := JArr [JStr "task"]]})))
                  1700000000000 None (JObj {["tasks" := JArr [JStr "task"]]})
                  eq_refl eq_refl)).
Defined.

(** The log of a process whose workspace prewarm throws on the first
    configuration: what loading the modules logged, then the four entries. *)
Lemma configureServer_prewarm_log_on_start :
  isServerConfigured initialServer = false ∧
  prewarmPromise initialServer = None ∧
  reactions initialServer = [] ∧
  slog (drain (configureServer (Throw networkDown) None initialServer)) =
  [mkLog "SharedServices" LInfo "Creating shared ClickUp services singleton";
   mkLog "SharedServices" LInfo "Services initialization complete";
   mkLog "Server" LInfo "Registering server request handlers";
   mkLog "SharedServices" LInfo "Starting background ClickUp cache prewarm";
   mkLog "Server" LInfo "Registering tool handlers";
   mkLog "Server" LWarn "Cache prewarm failed"].
Proof.
  split; [reflexivity|]. split; [reflexivity|]. split; [reflexivity|].
  exact (configureServer_prewarm_log (Throw networkDown) None initialServer
           eq_refl eq_refl eq_refl).
Defined.
